(** * Master8: a verified model of the AMPI Master-8 command encoder

    The development embeds [Master8.py] (Python 2.7, on top of pyserial) in
    three layers:

    - [Py]: the Python values that reach the driver (integers, binary64
      floats, byte strings, booleans, [None]) and the builtins the driver
      calls on them: comparison, [in], indexing, [abs], [round], [str],
      ["{0:0.Nf}".format], [rstrip], [' '.join].
    - [Serial]: the three operations of a pyserial port the driver relies on
      ([write], [isOpen], [close]).
    - the class [Master8] itself: every method is a command in a state and
      exception monad over the object, so that what has reached the port when
      an exception is raised stays observable. *)

From Stdlib Require Import ZArith List String Ascii Bool Lia.
From Stdlib Require Import Floats.SpecFloat Numbers.DecimalString.
Import ListNotations.

Open Scope string_scope.
Open Scope Z_scope.

(* ================================================================== *)
(** ** Python values and builtins *)
(* ================================================================== *)

Module Py.

(** A Python [float] is an IEEE-754 binary64 number. *)
Definition float : Type := spec_float.
Definition prec : Z := 53.
Definition emax : Z := 1024.

(** Numbers, and the values a caller can hand to the driver. *)
Inductive num : Type :=
| Int (z : Z)
| Float (x : float).

Inductive value : Type :=
| Num (n : num)
| Str (s : string)
| Bool (b : bool)
| NoneV.

(** The exceptions that can leave a method of the driver. *)
Inductive exn : Type :=
| AssertionError
| TypeError
| ValueError
| IndexError
| OverflowError
| AttributeError
| SerialException.

Definition result (A : Type) : Type := (exn + A)%type.

(** *** Exact comparison

    Python compares an [int] with a [float], and two floats, by their exact
    values; a NaN compares false with everything. *)

Inductive exact : Type :=
| XNaN
| XInf (neg : bool)
| XFin (m e : Z).   (* m * 2^e *)

Definition exact_of_float (x : float) : exact :=
  match x with
  | S754_nan => XNaN
  | S754_infinity s => XInf s
  | S754_zero _ => XFin 0 0
  | S754_finite s m e => XFin (cond_Zopp s (Zpos m)) e
  end.

Definition exact_of (n : num) : exact :=
  match n with
  | Int z => XFin z 0
  | Float x => exact_of_float x
  end.

Definition fin_compare (m1 e1 m2 e2 : Z) : comparison :=
  let e := Z.min e1 e2 in
  (m1 * 2 ^ (e1 - e) ?= m2 * 2 ^ (e2 - e)).

Definition compare (a b : num) : option comparison :=
  match exact_of a, exact_of b with
  | XNaN, _ | _, XNaN => None
  | XInf s1, XInf s2 =>
      Some (match s1, s2 with
            | true, false => Lt
            | false, true => Gt
            | _, _ => Eq
            end)
  | XInf s, XFin _ _ => Some (if s then Lt else Gt)
  | XFin _ _, XInf s => Some (if s then Gt else Lt)
  | XFin m1 e1, XFin m2 e2 => Some (fin_compare m1 e1 m2 e2)
  end.

(** [a == b], [a < b], [a <= b], [a >= b] on numbers. *)
Definition eqb (a b : num) : bool :=
  match compare a b with Some Eq => true | _ => false end.
Definition ltb (a b : num) : bool :=
  match compare a b with Some Lt => true | _ => false end.
Definition leb (a b : num) : bool :=
  match compare a b with Some (Lt | Eq) => true | _ => false end.
Definition geb (a b : num) : bool :=
  match compare a b with Some (Gt | Eq) => true | _ => false end.

(** A [bool] is an [int] in arithmetic and comparisons. *)
Definition int_of_bool (b : bool) : Z := if b then 1 else 0.

(** [a == b] on values. *)
Definition value_eqb (a b : value) : bool :=
  match a, b with
  | Num x, Num y => eqb x y
  | Num x, Bool c => eqb x (Int (int_of_bool c))
  | Bool c, Num y => eqb (Int (int_of_bool c)) y
  | Bool c, Bool d => Bool.eqb c d
  | Str s, Str t => String.eqb s t
  | NoneV, NoneV => true
  | _, _ => false
  end.

(** [x in l] for a list [l]. *)
Definition contains (l : list value) (x : value) : bool :=
  existsb (fun y => value_eqb x y) l.

(** [not v]. *)
Definition falsy (v : value) : bool :=
  match v with
  | Num n => eqb n (Int 0)
  | Str s => String.eqb s ""
  | Bool b => negb b
  | NoneV => true
  end.

(** [range(a, b)]. *)
Definition range (a b : Z) : list value :=
  map (fun k => Num (Int (a + Z.of_nat k))) (seq 0 (Z.to_nat (b - a))).

(** [l[i]]: the index is an [int] or a [bool]; a negative one counts from the
    end. *)
Definition getitem {A : Type} (l : list A) (i : value) : result A :=
  let at_ (z : Z) : result A :=
    let n := Z.of_nat (List.length l) in
    let k := if z <? 0 then z + n else z in
    if (k <? 0) || (n <=? k) then inl IndexError
    else match nth_error l (Z.to_nat k) with
         | Some a => inr a
         | None => inl IndexError
         end in
  match i with
  | Num (Int z) => at_ z
  | Bool b => at_ (int_of_bool b)
  | _ => inl TypeError
  end.

(** *** Decimal text *)

Definition digits (n : Z) : string := NilZero.string_of_int (Z.to_int n).

Fixpoint zeros (n : nat) : string :=
  match n with
  | O => ""
  | S k => String "0" (zeros k)
  end.

(** [s.rstrip(ch)] for a single character [ch]. *)
Fixpoint rstrip (ch : ascii) (s : string) : string :=
  match s with
  | EmptyString => EmptyString
  | String a t =>
      match rstrip ch t with
      | EmptyString => if Ascii.eqb a ch then EmptyString else String a EmptyString
      | t' => String a t'
      end
  end.

(** A run of [n] copies of [ch], and whether [s] ends with [ch]. *)
Fixpoint repeat_char (ch : ascii) (n : nat) : string :=
  match n with
  | O => ""
  | S k => String ch (repeat_char ch k)
  end.

Fixpoint ends_with (ch : ascii) (s : string) : bool :=
  match s with
  | EmptyString => false
  | String a EmptyString => Ascii.eqb a ch
  | String _ t => ends_with ch t
  end.

(** [sep.join(l)]. *)
Definition join (sep : string) (l : list string) : string := String.concat sep l.

(** Number of decimal digits of a positive integer. *)
Definition ndigits10 (a : Z) : Z :=
  Z.of_nat (String.length (digits a)).

(** *** Rounding a fraction [a / b] ([0 <= a], [0 < b]) to an integer *)

Definition round_half_even (a b : Z) : Z :=
  let q := a / b in
  match (2 * (a mod b) ?= b) with
  | Lt => q
  | Eq => if Z.even q then q else q + 1
  | Gt => q + 1
  end.

Definition round_half_away (a b : Z) : Z :=
  let q := a / b in
  match (2 * (a mod b) ?= b) with
  | Lt => q
  | _ => q + 1
  end.

(** [m * 2^e * 10^p] as a fraction of two positive integers. *)
Definition scaled (m : positive) (e p : Z) : Z * Z :=
  (Zpos m * 2 ^ Z.max e 0 * 10 ^ Z.max p 0,
   2 ^ Z.max (- e) 0 * 10 ^ Z.max (- p) 0).

(** The float nearest to [a / b] (ties to even), as [strtod] finds it for a
    decimal numeral. *)
Definition nearest (s : bool) (a b : Z) : float :=
  match a, b with
  | Zpos a', Zpos b' =>
      SFdiv prec emax (S754_finite s a' 0) (S754_finite false b' 0)
  | _, _ => S754_zero s
  end.

(** A decimal literal [m e k] of the source, as in [40e-6] or [12.7]. *)
Definition literal (m k : Z) : float :=
  nearest false (m * 10 ^ Z.max k 0) (10 ^ Z.max (- k) 0).

(** [float(z)] for an [int] (or [long]) [z]. *)
Definition float_of_int (z : Z) : result float :=
  match binary_normalize prec emax z 0 false with
  | S754_infinity _ => inl OverflowError
  | x => inr x
  end.

Definition to_float (n : num) : result float :=
  match n with
  | Int z => float_of_int z
  | Float x => inr x
  end.

(** [abs(n)]. *)
Definition abs (n : num) : num :=
  match n with
  | Int z => Int (Z.abs z)
  | Float x => Float (SFabs x)
  end.

Definition sign_text (s : bool) : string := if s then "-" else "".

(** *** Fixed-point formatting: ["{0:0.<p>f}".format(x)]

    The exact value is rounded (ties to even) to [p] decimals. *)

(** The last [p] decimal digits of [n], most significant first. *)
Definition digit_char (d : Z) : ascii := ascii_of_nat (48 + Z.to_nat d).

Fixpoint frac_text (p : nat) (n : Z) : string :=
  match p with
  | O => ""
  | S k => frac_text k (n / 10) ++ String (digit_char (n mod 10)) ""
  end.

(** [n / 10^p] written with [p] digits after the point; no point at all for
    [p = 0]. *)
Definition fixed_text (n p : Z) : string :=
  if p <=? 0 then digits n
  else digits (n / 10 ^ p) ++ "." ++ frac_text (Z.to_nat p) (n mod 10 ^ p).

Definition format_f_float (p : Z) (x : float) : string :=
  match x with
  | S754_nan => "nan"
  | S754_infinity s => sign_text s ++ "inf"
  | S754_zero s => sign_text s ++ fixed_text 0 p
  | S754_finite s m e =>
      let '(a, b) := scaled m e p in
      sign_text s ++ fixed_text (round_half_even a b) p
  end.

(** An [int] argument is converted to [float] first; a negative precision is
    a malformed format specifier. *)
Definition format_f (p : Z) (n : num) : result string :=
  if p <? 0 then inl ValueError
  else match to_float n with
       | inl e => inl e
       | inr x => inr (format_f_float p x)
       end.

(** *** [str(x)] for a float: ["%.12g"], with [".0"] added to an integer

    Twelve significant digits, ties to even; the exponent form is used when
    the decimal point would lie more than three zeros left of the digits, or
    when the integer part has more than eleven digits. *)

(** [floor (log10 (a / b))] for positive [a] and [b]. *)
Definition floor_log10 (a b : Z) : Z :=
  let c := ndigits10 a - ndigits10 b in
  if b * 10 ^ Z.max c 0 <=? a * 10 ^ Z.max (- c) 0 then c else c - 1.

(** The [nd] significant digits of [m * 2^e], without trailing zeros, and the
    position of the decimal point: the value is [0.d1d2... * 10^decpt]. *)
Definition significant (nd : Z) (m : positive) (e : Z) : string * Z :=
  let '(a, b) := scaled m e 0 in
  let x0 := floor_log10 a b in
  let k := nd - 1 - x0 in
  let d := round_half_even (a * 10 ^ Z.max k 0) (b * 10 ^ Z.max (- k) 0) in
  if d =? 10 ^ nd then ("1", x0 + 2)
  else (rstrip "0" (digits d), x0 + 1).

Definition exponent_text (x : Z) : string :=
  let a := digits (Z.abs x) in
  (if x <? 0 then "-" else "+") ++ (if Z.abs x <? 10 then "0" ++ a else a).

Definition str_float (x : float) : string :=
  match x with
  | S754_nan => "nan"
  | S754_infinity s => sign_text s ++ "inf"
  | S754_zero s => sign_text s ++ "0.0"
  | S754_finite s m e =>
      let '(ds, decpt) := significant 12 m e in
      let nd := Z.of_nat (String.length ds) in
      sign_text s ++
      (if (decpt <=? -4) || (11 <? decpt) then
         substring 0 1 ds
         ++ (if 1 <? nd then "." ++ substring 1 (String.length ds - 1) ds else "")
         ++ "e" ++ exponent_text (decpt - 1)
       else if decpt <=? 0 then
         "0." ++ zeros (Z.to_nat (- decpt)) ++ ds
       else if nd <=? decpt then
         ds ++ zeros (Z.to_nat (decpt - nd)) ++ ".0"
       else
         substring 0 (Z.to_nat decpt) ds ++ "."
         ++ substring (Z.to_nat decpt) (Z.to_nat (nd - decpt)) ds)
  end.

(** [str(v)]. *)
Definition str (v : value) : string :=
  match v with
  | Num (Int z) => digits z
  | Num (Float x) => str_float x
  | Str s => s
  | Bool true => "True"
  | Bool false => "False"
  | NoneV => "None"
  end.

(** The float for the decimal numeral [k * 10^(-n)], an error when it is
    beyond the largest float. *)
Definition of_decimal (s : bool) (k n : Z) : result float :=
  match nearest s (k * 10 ^ Z.max (- n) 0) (10 ^ Z.max n 0) with
  | S754_infinity _ => inl OverflowError
  | r => inr r
  end.

(** *** [round(x, n)]

    Python 2 rounds the exact value half away from zero to [n] decimals and
    returns the nearest float; non-finite values and zeros round to
    themselves. *)
Definition round_float (x : float) (n : Z) : result float :=
  match x with
  | S754_finite s m e =>
      if 323 <? n then inr x
      else if n <? -308 then inr (S754_zero s)
      else
        let '(a, b) := scaled m e n in
        of_decimal s (round_half_away a b) n
  | _ => inr x
  end.

Definition round (n : num) (ndigits : Z) : result float :=
  match to_float n with
  | inl e => inl e
  | inr x => round_float x ndigits
  end.

End Py.

(* ================================================================== *)
(** ** The serial port *)
(* ================================================================== *)

Module Serial.
Import Py.

(** A port: whether it is open, and the messages written to it so far, one
    entry per call of [write], oldest first. *)
Record t : Type := mk { port : option string; is_open : bool; sent : list string }.

(** [serial.Serial()]: no port configured, not open. *)
Definition Serial : t := mk None false [].

(** [serial.serial_for_url(url)], when the port can be opened. *)
Definition serial_for_url (url : string) : t := mk (Some url) true [].

Definition isOpen (p : t) : bool := is_open p.

Definition close (p : t) : t := mk (port p) false (sent p).

(** Writing to a port that is not open raises. *)
Definition write (data : string) (p : t) : result t :=
  if is_open p then inr (mk (port p) true (sent p ++ [data]))
  else inl SerialException.

(** The bytes that reached the wire. *)
Definition stream (p : t) : string := String.concat "" (sent p).

End Serial.

(* ================================================================== *)
(** ** Master8.py *)
(* ================================================================== *)

Import Py.

(** ASCII codes for Master 8 keys. Duplicates exist to accommodate all
    references in the manuals. *)
Definition DURATION := "D".
Definition DURA := DURATION.
Definition INTERVAL := "I".
Definition DELAY := "L".
Definition M := "M".
Definition V := "V".
Definition DELTAV := "J".
Definition JUMP := DELTAV.
Definition J := JUMP.
Definition FREE_RUN := "F".
Definition FREE := FREE_RUN.
Definition TRAIN := "N".
Definition TRIG := "G".
Definition DC := "C".
Definition GATE := "T".
Definition OFF := "O".
Definition TIMER := "W".
Definition ALL := "A".
Definition CLOCK_DISP := "Q".
Definition STOP_WATCH := "S".
Definition CLOCK_RESET := "R".
Definition CHECK := "H".
Definition CLEAR_DISP := "Y".
Definition CNCT_DSCNCT := "X".
Definition CONNECT := CNCT_DSCNCT.
Definition DISCONNECT := "Z".
Definition ENTER := "E".
Definition BEGIN := "B".

Definition cmOff : Z := 0.
Definition cmFreeRun : Z := 1.
Definition cmTrain : Z := 2.
Definition cmTrig : Z := 3.
Definition cmDC : Z := 4.
Definition cmGate : Z := 5.

(** Ranges of valid parameters. *)
Definition paradigms : list value := range 1 9.
Definition channels : list value := range 1 9.

(** The integer modes and their codes. *)
Definition cmList : list value := range 0 6.
Definition modes : list value :=
  [Str OFF; Str FREE_RUN; Str TRAIN; Str TRIG; Str DC; Str GATE].

(** The object: its only attribute is the connection [c], which [__init__]
    may leave unset. *)
Record Master8 : Type := { c : option Serial.t }.

(** *** Methods as commands

    A method takes the object and returns it together with either the
    exception raised or the value returned. *)
Definition Cmd (A : Type) : Type := Master8 -> Master8 * result A.

Definition ret {A : Type} (a : A) : Cmd A := fun self => (self, inr a).

Definition raise {A : Type} (e : exn) : Cmd A := fun self => (self, inl e).

Definition bind {A B : Type} (m : Cmd A) (k : A -> Cmd B) : Cmd B :=
  fun self =>
    match m self with
    | (self', inl e) => (self', inl e)
    | (self', inr a) => k a self'
    end.

Notation "x <- m ;; k" := (bind m (fun x => k))
  (at level 61, m at next level, right associativity).
Notation "m ;; k" := (bind m (fun _ => k))
  (at level 61, right associativity).

(** [assert(b)]. *)
Definition assert (b : bool) : Cmd unit :=
  if b then ret tt else raise AssertionError.

(** A builtin that may raise. *)
Definition lift {A : Type} (r : result A) : Cmd A :=
  match r with
  | inl e => raise e
  | inr a => ret a
  end.

(** [self.c], an [AttributeError] when unset. *)
Definition get_c : Cmd Serial.t :=
  fun self =>
    match c self with
    | Some p => (self, inr p)
    | None => (self, inl AttributeError)
    end.

(** What the caller's argument to [Master8(...)] can be. An object that is
    neither [None], a [str] nor a serial port only matters through its
    [repr]. *)
Inductive connection_arg : Type :=
| ConnNone
| ConnStr (url : string)
| ConnSerial (p : Serial.t)
| ConnOther (repr : string).

(** [__init__]: the lines printed on standard output, and the object built,
    or the exception raised. *)
Definition init (connection : connection_arg) : list string * result Master8 :=
  match connection with
  | ConnNone => ([], inr {| c := Some Serial.Serial |})
  | ConnStr url => ([], inr {| c := Some (Serial.serial_for_url url) |})
  | ConnSerial p => ([], inr {| c := Some p |})
  | ConnOther r => (["Unknown connection: " ++ r], inr {| c := None |})
  end.

(** Translate list of arguments to a command string and send to device. *)
Definition write (args : list value) : Cmd unit :=
  p <- get_c ;;
  fun self =>
    match Serial.write (join " " (map str args)) p with
    | inl e => (self, inl e)
    | inr p' => ({| c := Some p' |}, inr tt)
    end.

(** The check of an optional bound: [if m is not None: assert(test m)]. *)
Definition assert_bound (test : num -> bool) (m : option num) : Cmd unit :=
  match m with
  | Some b => assert (test b)
  | None => ret tt
  end.

Definition writeInterval (f : num) (minf maxf : option num) (res : Z) : Cmd unit :=
  assert_bound (fun m => geb f m) minf ;;
  assert_bound (fun m => leb f m) maxf ;;
  t <- lift (format_f res f) ;;
  let f_ := rstrip "." (rstrip "0" t) in
  write [Str f_; Str ENTER; Num (Int 0); Str ENTER].

(** The defaults of [writeInterval]. *)
Definition interval_minf : option num := Some (Int 0).
Definition interval_maxf : option num := Some (Int 3999).
Definition interval_res : Z := 6.

Definition writeVoltage (f : num) (minf maxf : option num) (res : Z) : Cmd unit :=
  assert_bound (fun m => geb f m) minf ;;
  assert_bound (fun m => leb f m) maxf ;;
  r <- lift (round (abs f) res) ;;
  write [Num (Float r); Str ENTER] ;;
  (if ltb f (Int 0) then write [Str "-"] else ret tt) ;;
  write [Str ENTER].

(** The defaults of [writeVoltage]. *)
Definition voltage_minf : option num := Some (Float (SFopp (literal 127 (-1)))).
Definition voltage_maxf : option num := Some (Float (literal 127 (-1))).
Definition voltage_res : Z := 1.

(** The property [connected] and its setter. *)
Definition connected : Cmd bool :=
  p <- get_c ;;
  ret (Serial.isOpen p).

Definition set_connected (v : value) : Cmd unit :=
  if falsy v then
    p <- get_c ;;
    fun _ => ({| c := Some (Serial.close p) |}, inr tt)
  else ret tt.

Definition changeParadigm (paradigm : value) : Cmd unit :=
  assert (contains paradigms paradigm) ;;
  write [Str ALL; paradigm; Str ENTER].

Definition changeChannelMode (channel mode : value) : Cmd unit :=
  assert (contains channels channel) ;;
  if contains cmList mode then
    t <- lift (getitem modes mode) ;;
    write [t; channel; Str ENTER]
  else if contains modes mode then
    write [mode; channel; Str ENTER]
  else
    assert (contains cmList mode || contains modes mode).

Definition setChannelDuration (channel : value) (duration : num) : Cmd unit :=
  write [Str DURATION; channel] ;;
  writeInterval duration (Some (Float (literal 40 (-6)))) interval_maxf interval_res.

Definition setChannelInterval (channel : value) (interval : num) : Cmd unit :=
  write [Str INTERVAL; channel] ;;
  writeInterval interval (Some (Float (literal 60 (-6)))) interval_maxf interval_res.

Definition setChannelDelay (channel : value) (delay : num) : Cmd unit :=
  write [Str DELAY; channel] ;;
  writeInterval delay (Some (Float (literal 100 (-6)))) interval_maxf interval_res.

Definition setChannelM (channel m : value) : Cmd unit :=
  write [Str M; channel; m; Str ENTER; Num (Int 0); Str ENTER].

Definition setChannelVoltage (channel : value) (voltage : num) : Cmd unit :=
  assert (contains channels channel) ;;
  write [Str V; channel] ;;
  writeVoltage voltage (Some (Float (SFopp (literal 127 (-1)))))
               (Some (Float (literal 127 (-1)))) 1.

Definition trigger (channel : value) : Cmd unit :=
  assert (contains channels channel) ;;
  write [channel].

Definition clearParadigm : Cmd unit :=
  write [Str OFF; Str ALL; Str ALL; Str ENTER].

Definition copyParadigm (srcParadigm destParadigm : value) : Cmd unit :=
  assert (contains paradigms srcParadigm) ;;
  assert (contains paradigms destParadigm) ;;
  write [Str ALL; srcParadigm; destParadigm; Str ENTER].

Definition connectChannel (srcChannel triggeredChannel : value) : Cmd unit :=
  assert (contains channels srcChannel) ;;
  assert (contains channels triggeredChannel) ;;
  write [Str CONNECT; srcChannel; triggeredChannel; Str ENTER].

Definition disconnectChannel (srcChannel triggeredChannel : value) : Cmd unit :=
  assert (contains channels srcChannel) ;;
  assert (contains channels triggeredChannel) ;;
  write [Str DISCONNECT; srcChannel; triggeredChannel; Str ENTER].

(** *** Observing a run *)

(** An encoder whose port [name] is open and has carried [log] so far. *)
Definition online (name : option string) (log : list string) : Master8 :=
  {| c := Some (Serial.mk name true log) |}.

(** What has been written through the object, one entry per write. *)
Definition written (self : Master8) : list string :=
  match c self with
  | Some p => Serial.sent p
  | None => []
  end.

(** A command that, whenever it raises, leaves the object as it was. *)
Definition keeps_on_failure {A : Type} (m : Cmd A) : Prop :=
  forall (self self' : Master8) (e : exn), m self = (self', inl e) -> self' = self.

(** The text [writeInterval] sends for the formatted value [t]. *)
Definition interval_message (t : string) : string :=
  join " " [rstrip "." (rstrip "0" t); ENTER; "0"; ENTER].

(** The object after some more traffic: the connection is still set, or
    still unset; the port has kept its name and its open flag; what was sent
    is still there, with the new messages after it. *)
Definition grows (self self' : Master8) : Prop :=
  match c self, c self' with
  | Some p, Some p' =>
      Serial.port p' = Serial.port p
      /\ Serial.is_open p' = Serial.is_open p
      /\ exists msgs : list string, Serial.sent p' = (Serial.sent p ++ msgs)%list
  | None, None => True
  | _, _ => False
  end.

(** A command that does nothing to the object but append to the log. *)
Definition appends_only {A : Type} (m : Cmd A) : Prop :=
  forall (self self' : Master8) (r : result A), m self = (self', r) -> grows self self'.

(** No usable port: the connection is unset, or the port is closed. *)
Definition offline (self : Master8) : bool :=
  match c self with
  | Some p => negb (Serial.isOpen p)
  | None => true
  end.

(** A command that cannot return without a usable port, and then leaves the
    object as it was. *)
Definition needs_port {A : Type} (m : Cmd A) : Prop :=
  forall self : Master8, offline self = true -> exists e, m self = (self, inl e).

(** The bytes that have reached the wire through the object. *)
Definition on_wire (self : Master8) : string := String.concat "" (written self).

(** *** Reading a sent value

    The characters of a text, and the way back from a stripped value to the
    fixed-point text it came from. *)
Definition is_digit (a : ascii) : bool :=
  ((48 <=? nat_of_ascii a) && (nat_of_ascii a <=? 57))%nat.

Definition is_point (a : ascii) : bool := Ascii.eqb a ".".

Definition keypad (a : ascii) : bool := is_digit a || is_point a.

Fixpoint all_chars (P : ascii -> bool) (s : string) : bool :=
  match s with
  | EmptyString => true
  | String a t => P a && all_chars P t
  end.

(** What follows the first point of [s], if there is one. *)
Fixpoint after_point (s : string) : option string :=
  match s with
  | EmptyString => None
  | String a t => if is_point a then Some t else after_point t
  end.

(** The stripped value [u] written again with [p] decimals. *)
Definition restore_decimals (p : nat) (u : string) : string :=
  match after_point u with
  | Some r => u ++ repeat_char "0" (p - String.length r)
  | None => u ++ "." ++ repeat_char "0" p
  end.

(** A float that is a number: a zero or a finite value. *)
Definition is_number (x : float) : bool :=
  match x with
  | S754_zero _ | S754_finite _ _ _ => true
  | _ => false
  end.

(** *** Sessions

    A caller's use of an encoder is a sequence of calls; an exception raised
    by one call leaves the object to the next one. *)
Inductive call : Type :=
| Write (args : list value)
| WriteInterval (f : num) (minf maxf : option num) (res : Z)
| WriteVoltage (f : num) (minf maxf : option num) (res : Z)
| GetConnected
| SetConnected (v : value)
| ChangeParadigm (paradigm : value)
| ChangeChannelMode (channel mode : value)
| SetChannelDuration (channel : value) (duration : num)
| SetChannelInterval (channel : value) (interval : num)
| SetChannelDelay (channel : value) (delay : num)
| SetChannelM (channel m : value)
| SetChannelVoltage (channel : value) (voltage : num)
| Trigger (channel : value)
| ClearParadigm
| CopyParadigm (srcParadigm destParadigm : value)
| ConnectChannel (srcChannel triggeredChannel : value)
| DisconnectChannel (srcChannel triggeredChannel : value).

(** The object after one call. *)
Definition perform (k : call) (self : Master8) : Master8 :=
  match k with
  | Write args => fst (write args self)
  | WriteInterval f minf maxf res => fst (writeInterval f minf maxf res self)
  | WriteVoltage f minf maxf res => fst (writeVoltage f minf maxf res self)
  | GetConnected => fst (connected self)
  | SetConnected v => fst (set_connected v self)
  | ChangeParadigm p => fst (changeParadigm p self)
  | ChangeChannelMode ch mode => fst (changeChannelMode ch mode self)
  | SetChannelDuration ch d => fst (setChannelDuration ch d self)
  | SetChannelInterval ch i => fst (setChannelInterval ch i self)
  | SetChannelDelay ch d => fst (setChannelDelay ch d self)
  | SetChannelM ch m => fst (setChannelM ch m self)
  | SetChannelVoltage ch v => fst (setChannelVoltage ch v self)
  | Trigger ch => fst (trigger ch self)
  | ClearParadigm => fst (clearParadigm self)
  | CopyParadigm a b => fst (copyParadigm a b self)
  | ConnectChannel a b => fst (connectChannel a b self)
  | DisconnectChannel a b => fst (disconnectChannel a b self)
  end.

(** The object after a sequence of calls. *)
Definition session (ks : list call) (self : Master8) : Master8 :=
  fold_left (fun s k => perform k s) ks self.

(* ================================================================== *)
(** ** Facts about the builtins *)
(* ================================================================== *)

Section Comparison.

Lemma fin_compare_antisym (m1 e1 m2 e2 : Z) :
  fin_compare m2 e2 m1 e1 = CompOpp (fin_compare m1 e1 m2 e2).
Proof.
  unfold fin_compare. rewrite (Z.min_comm e2 e1). apply Z.compare_antisym.
Qed.

Lemma compare_antisym (a b : num) :
  compare b a = option_map CompOpp (compare a b).
Proof.
  unfold compare.
  destruct (exact_of a) as [|sa|ma ea], (exact_of b) as [|sb|mb eb]; cbn;
    try reflexivity.
  - now destruct sa, sb.
  - now destruct sa.
  - now destruct sb.
  - now rewrite fin_compare_antisym.
Qed.

(** [a < b] excludes [b <= a]. *)
Lemma ltb_not_leb (a b : num) : ltb a b = true -> leb b a = false.
Proof.
  unfold ltb, leb. rewrite (compare_antisym a b).
  now destruct (compare a b) as [[| |]|].
Qed.

Lemma eqb_Int (x y : Z) : eqb (Int x) (Int y) = (x =? y).
Proof.
  unfold eqb, compare, fin_compare; cbn.
  rewrite !Z.mul_1_r.
  destruct (Z.compare_spec x y) as [H|H|H];
    symmetry; [apply Z.eqb_eq | apply Z.eqb_neq | apply Z.eqb_neq]; lia.
Qed.

Lemma leb_Int (x y : Z) : leb (Int x) (Int y) = (x <=? y).
Proof.
  unfold leb, compare, fin_compare; cbn.
  rewrite !Z.mul_1_r. unfold Z.leb.
  now destruct (x ?= y).
Qed.

End Comparison.

Section Membership.

Lemma contains_range_Int (a b z : Z) :
  contains (range a b) (Num (Int z)) = (a <=? z) && (z <? b).
Proof.
  apply Bool.eq_iff_eq_true.
  unfold contains, range.
  rewrite existsb_exists, andb_true_iff, Z.leb_le, Z.ltb_lt.
  split.
  - intros [y [Hin Heq]].
    apply in_map_iff in Hin as [k [<- Hk]]. apply in_seq in Hk.
    change (eqb (Int z) (Int (a + Z.of_nat k)) = true) in Heq.
    rewrite eqb_Int in Heq. apply Z.eqb_eq in Heq. lia.
  - intros [Ha Hb].
    exists (Num (Int z)). split.
    + apply in_map_iff. exists (Z.to_nat (z - a)). split.
      * do 2 f_equal. lia.
      * apply in_seq. lia.
    + change (eqb (Int z) (Int z) = true). rewrite eqb_Int. apply Z.eqb_refl.
Qed.

(** A string is never equal to a number. *)
Lemma contains_range_Str (a b : Z) (s : string) :
  contains (range a b) (Str s) = false.
Proof.
  unfold contains, range.
  induction (seq 0 (Z.to_nat (b - a))) as [|k l IH]; [reflexivity | exact IH].
Qed.

End Membership.

Section Strings.

(** [rstrip] removes a run of [ch] at the end, and nothing else. *)
Lemma rstrip_spec (ch : ascii) (s : string) :
  exists n, s = rstrip ch s ++ repeat_char ch n /\ ends_with ch (rstrip ch s) = false.
Proof.
  induction s as [|a t [n [Ht He]]].
  - exists O. now split.
  - cbn [rstrip]. destruct (rstrip ch t) as [|b u] eqn:E.
    + destruct (Ascii.eqb_spec a ch) as [->|Hne].
      * exists (S n). cbn in *. now rewrite Ht at 1.
      * exists n. cbn in *. split; [now rewrite Ht at 1|].
        now apply Ascii.eqb_neq.
    + exists n. split.
      * cbn. now rewrite Ht at 1.
      * exact He.
Qed.

End Strings.

Section Conversion.

(** The literals of the source, as binary64 numbers. *)
Lemma literal_40us : literal 40 (-6) = S754_finite false 5902958103587057 (-67).
Proof. vm_compute. reflexivity. Qed.

Lemma literal_60us : literal 60 (-6) = S754_finite false 8854437155380585 (-67).
Proof. vm_compute. reflexivity. Qed.

Lemma literal_100us : literal 100 (-6) = S754_finite false 7378697629483821 (-66).
Proof. vm_compute. reflexivity. Qed.

(** An [int] at or above a positive float is positive. *)
Lemma geb_Int_pos (z : Z) (m : positive) (e : Z) :
  geb (Int z) (Float (S754_finite false m e)) = true -> 0 < z.
Proof.
  cbv beta iota zeta delta [geb compare fin_compare exact_of exact_of_float cond_Zopp].
  set (a := 2 ^ (0 - Z.min 0 e)). set (b := 2 ^ (e - Z.min 0 e)).
  assert (Ha : 0 < a) by (apply Z.pow_pos_nonneg; lia).
  assert (Hb : 0 < Zpos m * b)
    by (apply Z.mul_pos_pos; [lia | apply Z.pow_pos_nonneg; lia]).
  destruct (Z.compare_spec (z * a) (Zpos m * b)) as [H|H|H];
    intros Hc; try discriminate Hc;
    apply (Z.mul_pos_cancel_r z a Ha); lia.
Qed.

(** Converting a small [int] to [float] does not overflow. *)
Lemma float_of_int_small (z : Z) :
  0 <= z <= 3999 -> exists x, float_of_int z = inr x.
Proof.
  intros Hz.
  assert (H : forallb (fun k => match float_of_int (Z.of_nat k) with
                                | inr _ => true
                                | inl _ => false
                                end) (seq 0 4000) = true)
    by (vm_compute; reflexivity).
  rewrite forallb_forall in H.
  specialize (H (Z.to_nat z)). rewrite Z2Nat.id in H by lia.
  destruct (float_of_int z) as [e|x].
  - discriminate H. apply in_seq. lia.
  - now exists x.
Qed.

(** Within the bounds of an interval, formatting cannot fail. *)
Lemma format_f_interval (f : num) (m : positive) (e : Z) :
  geb f (Float (S754_finite false m e)) = true ->
  leb f (Int 3999) = true ->
  exists t, format_f interval_res f = inr t.
Proof.
  intros Hlo Hhi. unfold format_f. cbn [interval_res Z.ltb Z.compare].
  destruct f as [z|x]; cbn [to_float].
  - apply geb_Int_pos in Hlo. rewrite leb_Int in Hhi. apply Z.leb_le in Hhi.
    destruct (float_of_int_small z) as [x ->]; [lia|]. eauto.
  - eauto.
Qed.

End Conversion.

Section Formatting.

Lemma length_append (s t : string) :
  String.length (s ++ t) = (String.length s + String.length t)%nat.
Proof. induction s as [|a s IH]; cbn; [reflexivity | now rewrite IH]. Qed.

(** The fraction has exactly the digits asked for. *)
Lemma frac_text_length (p : nat) (n : Z) : String.length (frac_text p n) = p.
Proof.
  revert n. induction p as [|p IH]; intros n; cbn [frac_text].
  - reflexivity.
  - rewrite length_append, IH. cbn. lia.
Qed.

(** Rounding to even lands within half a unit of the fraction. *)
Lemma round_half_even_near (a b : Z) :
  0 < b -> Z.abs (2 * (round_half_even a b * b - a)) <= b.
Proof.
  intros Hb. unfold round_half_even.
  pose proof (Z.div_mod a b ltac:(lia)) as Hdiv.
  pose proof (Z.mod_pos_bound a b Hb) as Hmod.
  destruct (Z.compare_spec (2 * (a mod b)) b) as [H|H|H];
    [destruct (Z.even (a / b))| |]; nia.
Qed.

(** Rounding half away from zero stays below [k + 1/2] when the fraction
    does. *)
Lemma round_half_away_bound (a b k : Z) :
  0 < b -> 2 * a < (2 * k + 1) * b -> round_half_away a b <= k.
Proof.
  intros Hb Hk. unfold round_half_away.
  pose proof (Z.div_mod a b ltac:(lia)) as Hdiv.
  pose proof (Z.mod_pos_bound a b Hb) as Hmod.
  destruct (Z.compare_spec (2 * (a mod b)) b) as [H|H|H]; nia.
Qed.

Lemma round_half_away_nonneg (a b : Z) :
  0 <= a -> 0 < b -> 0 <= round_half_away a b.
Proof.
  intros Ha Hb. unfold round_half_away.
  pose proof (Z.div_pos a b Ha Hb).
  destruct (2 * (a mod b) ?= b); lia.
Qed.

(** The fixed-point text of a finite float: a sign, the integer part, a
    point and exactly [p] digits, for the integer nearest to the value
    scaled by [10^p]. *)
Lemma format_f_float_fixed (p : Z) (s : bool) (m : positive) (e : Z) :
  0 < p ->
  exists n : Z,
    Z.abs (2 * (n * snd (scaled m e p) - fst (scaled m e p))) <= snd (scaled m e p)
    /\ format_f_float p (S754_finite s m e)
       = sign_text s ++ digits (n / 10 ^ p) ++ "."
         ++ frac_text (Z.to_nat p) (n mod 10 ^ p)
    /\ String.length (frac_text (Z.to_nat p) (n mod 10 ^ p)) = Z.to_nat p.
Proof.
  intros Hp. unfold format_f_float.
  destruct (scaled m e p) as [a b] eqn:E. cbn [fst snd].
  exists (round_half_even a b). split; [|split].
  - apply round_half_even_near.
    unfold scaled in E. injection E as _ <-.
    apply Z.mul_pos_pos; apply Z.pow_pos_nonneg; lia.
  - unfold fixed_text.
    destruct (Z.leb_spec p 0); [lia | reflexivity].
  - apply frac_text_length.
Qed.

(** Formatting a float fails only on a negative precision. *)
Lemma format_f_Float (p : Z) (x : float) :
  format_f p (Float x) = if p <? 0 then inl ValueError else inr (format_f_float p x).
Proof. reflexivity. Qed.

End Formatting.

Section RoundingVoltages.

Lemma literal_12_7 : literal 127 (-1) = S754_finite false 7149464408450662 (-49).
Proof. vm_compute. reflexivity. Qed.

(** A finite float between -12.7 and 12.7, in integers. *)
Lemma voltage_magnitude (s : bool) (m : positive) (e : Z) :
  geb (Float (S754_finite s m e)) (Float (SFopp (literal 127 (-1)))) = true ->
  leb (Float (S754_finite s m e)) (Float (literal 127 (-1))) = true ->
  Zpos m * 2 ^ (e - Z.min e (-49))
  <= 7149464408450662 * 2 ^ (-49 - Z.min e (-49)).
Proof.
  rewrite literal_12_7.
  cbv beta iota zeta delta
      [geb leb compare fin_compare exact_of exact_of_float cond_Zopp SFopp negb].
  set (a := 2 ^ (e - Z.min e (-49))). set (b := 2 ^ (-49 - Z.min e (-49))).
  destruct s.
  - destruct (Z.compare_spec (Z.opp (Zpos m) * a) (Z.opp 7149464408450662 * b));
      intros Hlo _; try discriminate Hlo; lia.
  - intros _.
    destruct (Z.compare_spec (Z.pos m * a) (7149464408450662 * b));
      intros Hhi; try discriminate Hhi; lia.
Qed.

(** Every multiple of a tenth up to 12.7 has its float. *)
Lemma of_decimal_tenths (k : Z) :
  0 <= k <= 127 -> exists r, of_decimal false k 1 = inr r.
Proof.
  intros Hk.
  assert (H : forallb (fun i => match of_decimal false (Z.of_nat i) 1 with
                                | inr _ => true
                                | inl _ => false
                                end) (seq 0 128) = true)
    by (vm_compute; reflexivity).
  rewrite forallb_forall in H.
  specialize (H (Z.to_nat k)). rewrite Z2Nat.id in H by lia.
  destruct (of_decimal false k 1) as [err|r].
  - discriminate H. apply in_seq. lia.
  - now exists r.
Qed.

Lemma round_small_int (k : Z) :
  0 <= k <= 12 -> exists r, round (Int k) 1 = inr r.
Proof.
  intros Hk.
  assert (H : forallb (fun i => match round (Int (Z.of_nat i)) 1 with
                                | inr _ => true
                                | inl _ => false
                                end) (seq 0 13) = true)
    by (vm_compute; reflexivity).
  rewrite forallb_forall in H.
  specialize (H (Z.to_nat k)). rewrite Z2Nat.id in H by lia.
  destruct (round (Int k) 1) as [err|r].
  - discriminate H. apply in_seq. lia.
  - now exists r.
Qed.

(** Ten times a magnitude of at most 12.7 rounds to at most 127. *)
Lemma voltage_tenths (m : positive) (e : Z) :
  Zpos m * 2 ^ (e - Z.min e (-49))
  <= 7149464408450662 * 2 ^ (-49 - Z.min e (-49)) ->
  0 <= round_half_away (fst (scaled m e 1)) (snd (scaled m e 1)) <= 127.
Proof.
  intros H. unfold scaled. cbn [fst snd].
  change (10 ^ Z.max 1 0) with 10. change (10 ^ Z.max (- (1)) 0) with 1.
  assert (Hb : 0 < 2 ^ Z.max (- e) 0) by (apply Z.pow_pos_nonneg; lia).
  assert (Ha : 0 < 2 ^ Z.max e 0) by (apply Z.pow_pos_nonneg; lia).
  split; [apply round_half_away_nonneg; nia|].
  apply round_half_away_bound; [lia|].
  destruct (Z_lt_le_dec e 0) as [Hneg|Hpos];
    [destruct (Z_lt_le_dec e (-49)) as [Hlow|Hmid]|].
  - (* e < -49 *)
    replace (Z.min e (-49)) with e in H by lia.
    replace (Z.max e 0) with 0 in * by lia.
    replace (Z.max (- e) 0) with ((-49 - e) + 49) in * by lia.
    replace (e - e) with 0 in H by lia. change (2 ^ 0) with 1 in *.
    rewrite Z.pow_add_r in * by lia. change (2 ^ 49) with 562949953421312 in *.
    lia.
  - (* -49 <= e < 0 *)
    replace (Z.min e (-49)) with (-49) in H by lia.
    replace (Z.max e 0) with 0 in * by lia.
    replace (Z.max (- e) 0) with (- e) in * by lia.
    replace (-49 - -49) with 0 in H by lia. change (2 ^ 0) with 1 in *.
    assert (Hq : 0 < 2 ^ (e - -49)) by (apply Z.pow_pos_nonneg; lia).
    assert (Hprod : 2 ^ (e - -49) * 2 ^ (- e) = 562949953421312).
    { rewrite <- Z.pow_add_r by lia. now replace (e - -49 + - e) with 49 by lia. }
    nia.
  - (* 0 <= e *)
    replace (Z.min e (-49)) with (-49) in H by lia.
    replace (Z.max e 0) with e in * by lia.
    replace (Z.max (- e) 0) with 0 in * by lia.
    replace (-49 - -49) with 0 in H by lia. change (2 ^ 0) with 1 in *.
    replace (e - -49) with (e + 49) in H by lia.
    rewrite Z.pow_add_r in H by lia. change (2 ^ 49) with 562949953421312 in H.
    nia.
Qed.

(** Between -12.7 and 12.7, rounding the magnitude to one decimal cannot
    fail. *)
Lemma round_voltage_total (f : num) :
  geb f (Float (SFopp (literal 127 (-1)))) = true ->
  leb f (Float (literal 127 (-1))) = true ->
  exists r, round (abs f) 1 = inr r.
Proof.
  intros Hlo Hhi. destruct f as [z|[s|s| |s m e]].
  - apply round_small_int.
    rewrite literal_12_7 in Hlo, Hhi. revert Hlo Hhi.
    cbv beta iota zeta delta
        [geb leb compare fin_compare exact_of exact_of_float cond_Zopp SFopp negb].
    change (Z.min 0 (-49)) with (-49).
    change (2 ^ (0 - -49)) with 562949953421312.
    change (2 ^ (-49 - -49)) with 1.
    destruct (Z.compare_spec (z * 562949953421312) (Z.opp 7149464408450662 * 1));
      intros Hlo; try discriminate Hlo;
      destruct (Z.compare_spec (z * 562949953421312) (7149464408450662 * 1));
      intros Hhi; try discriminate Hhi; cbn [abs]; lia.
  - eexists. reflexivity.
  - destruct s; [discriminate Hlo | discriminate Hhi].
  - discriminate Hlo.
  - pose proof (voltage_tenths m e (voltage_magnitude s m e Hlo Hhi)) as Hk.
    cbn [abs SFabs round to_float round_float].
    change (323 <? 1) with false. change (1 <? -308) with false. cbv iota.
    destruct (scaled m e 1) as [a b]. cbn [fst snd] in Hk.
    now apply of_decimal_tenths.
Qed.

End RoundingVoltages.

(* ================================================================== *)
(** ** Stepping through a method *)
(* ================================================================== *)

Section Steps.

Lemma write_online (name : option string) (log : list string) (args : list value) :
  write args (online name log) = (online name (log ++ [join " " (map str args)]), inr tt).
Proof. reflexivity. Qed.

Lemma write_unset (args : list value) :
  write args {| c := None |} = ({| c := None |}, inl AttributeError).
Proof. reflexivity. Qed.

Lemma bind_assert {A : Type} (b : bool) (k : Cmd A) (self : Master8) :
  (assert b ;; k) self = if b then k self else (self, inl AssertionError).
Proof. now destruct b. Qed.

Lemma bind_assert_bound {A : Type} (test : num -> bool) (m : option num)
      (k : Cmd A) (self : Master8) :
  (assert_bound test m ;; k) self =
  match m with
  | Some b => if test b then k self else (self, inl AssertionError)
  | None => k self
  end.
Proof. destruct m as [b|]; [apply bind_assert | reflexivity]. Qed.

Lemma bind_lift {A B : Type} (r : result A) (k : A -> Cmd B) (self : Master8) :
  (x <- lift r ;; k x) self =
  match r with
  | inl e => (self, inl e)
  | inr a => k a self
  end.
Proof. now destruct r. Qed.

Lemma bind_write_online {A : Type} (name : option string) (log : list string)
      (args : list value) (k : Cmd A) :
  (write args ;; k) (online name log) =
  k (online name (log ++ [join " " (map str args)])).
Proof. reflexivity. Qed.

(** Commands that leave the object as it was when they raise. *)
Lemma keeps_write (args : list value) : keeps_on_failure (write args).
Proof.
  intros self self' e. unfold write, bind, get_c.
  destruct (c self) as [p|].
  - destruct (Serial.write _ p); intros H; [now injection H as <- _ | discriminate H].
  - intros H. now injection H as <- _.
Qed.

Lemma keeps_assert (b : bool) : keeps_on_failure (assert b).
Proof.
  intros self self' e. destruct b; intros H; [discriminate H | now injection H as <- _].
Qed.

Lemma keeps_assert_bind {A : Type} (b : bool) (k : Cmd A) :
  keeps_on_failure k -> keeps_on_failure (assert b ;; k).
Proof.
  intros Hk self self' e. rewrite bind_assert. destruct b.
  - apply Hk.
  - intros H. now injection H as <- _.
Qed.

Lemma keeps_lift_bind {A B : Type} (r : result A) (k : A -> Cmd B) :
  (forall a, keeps_on_failure (k a)) -> keeps_on_failure (x <- lift r ;; k x).
Proof.
  intros Hk self self' e. rewrite bind_lift. destruct r as [err|a].
  - intros H. now injection H as <- _.
  - apply Hk.
Qed.

Lemma keeps_changeParadigm (p : value) : keeps_on_failure (changeParadigm p).
Proof. apply keeps_assert_bind, keeps_write. Qed.

Lemma keeps_changeChannelMode (channel mode : value) :
  keeps_on_failure (changeChannelMode channel mode).
Proof.
  unfold changeChannelMode. apply keeps_assert_bind.
  destruct (contains cmList mode).
  - apply keeps_lift_bind. intros t. apply keeps_write.
  - destruct (contains modes mode); [apply keeps_write | apply keeps_assert].
Qed.

Lemma keeps_trigger (channel : value) : keeps_on_failure (trigger channel).
Proof. apply keeps_assert_bind, keeps_write. Qed.

Lemma keeps_copyParadigm (a b : value) : keeps_on_failure (copyParadigm a b).
Proof. apply keeps_assert_bind, keeps_assert_bind, keeps_write. Qed.

Lemma keeps_connectChannel (a b : value) : keeps_on_failure (connectChannel a b).
Proof. apply keeps_assert_bind, keeps_assert_bind, keeps_write. Qed.

Lemma keeps_disconnectChannel (a b : value) :
  keeps_on_failure (disconnectChannel a b).
Proof. apply keeps_assert_bind, keeps_assert_bind, keeps_write. Qed.

(** A value above the upper bound stops [writeInterval] at its assertions,
    whatever the lower bound and the state of the port. *)
Lemma writeInterval_above (f : num) (minf : option num) (hi : num) (res : Z)
      (self : Master8) :
  ltb hi f = true ->
  writeInterval f minf (Some hi) res self = (self, inl AssertionError).
Proof.
  intros H. apply ltb_not_leb in H.
  unfold writeInterval. rewrite bind_assert_bound.
  destruct minf as [lo|]; [destruct (geb f lo); [|reflexivity]|];
    rewrite bind_assert_bound, H; reflexivity.
Qed.

(** A value inside its bounds is formatted and sent as one message. *)
Lemma writeInterval_within (f : num) (minf maxf : option num) (res : Z) (t : string)
      (name : option string) (log : list string) :
  match minf with Some lo => geb f lo | None => true end = true ->
  match maxf with Some hi => leb f hi | None => true end = true ->
  format_f res f = inr t ->
  writeInterval f minf maxf res (online name log) =
  (online name (log ++ [interval_message t]), inr tt).
Proof.
  intros Hlo Hhi Ht. unfold writeInterval.
  rewrite bind_assert_bound.
  destruct minf as [lo|]; [rewrite Hlo|];
    (rewrite bind_assert_bound;
     destruct maxf as [hi|]; [rewrite Hhi|];
     rewrite bind_lift, Ht; apply write_online).
Qed.

End Steps.

(* ================================================================== *)
(** ** The token table *)
(* ================================================================== *)

(** C9. Every key name stands for the single ASCII character of the device
    manual, and the mode list is [Off, FreeRun, Train, Trigger, DC, Gate], at
    the indices [cmOff] to [cmGate], that is 0 to 5. *)
Theorem token_table :
  (DURATION = "D" /\ INTERVAL = "I" /\ DELAY = "L" /\ M = "M" /\ V = "V" /\
   JUMP = "J" /\ FREE_RUN = "F" /\ TRAIN = "N" /\ TRIG = "G" /\ DC = "C" /\
   GATE = "T" /\ OFF = "O" /\ TIMER = "W" /\ ALL = "A" /\ CLOCK_DISP = "Q" /\
   STOP_WATCH = "S" /\ CLOCK_RESET = "R" /\ CHECK = "H" /\ CLEAR_DISP = "Y" /\
   CONNECT = "X" /\ DISCONNECT = "Z" /\ ENTER = "E" /\ BEGIN = "B")
  /\ modes = [Str OFF; Str FREE_RUN; Str TRAIN; Str TRIG; Str DC; Str GATE]
  /\ map (fun i => getitem modes (Num (Int i)))
         [cmOff; cmFreeRun; cmTrain; cmTrig; cmDC; cmGate]
     = [inr (Str "O"); inr (Str "F"); inr (Str "N");
        inr (Str "G"); inr (Str "C"); inr (Str "T")]
  /\ [cmOff; cmFreeRun; cmTrain; cmTrig; cmDC; cmGate] = [0; 1; 2; 3; 4; 5]
  /\ cmList = map (fun i => Num (Int i)) [0; 1; 2; 3; 4; 5].
Proof. repeat split. Qed.

(* ================================================================== *)
(** ** Paradigms and channel modes *)
(* ================================================================== *)

Section Paradigm.

(** C6. For a paradigm [p] from 1 to 8, [changeParadigm(p)] sends exactly
    the message [A p E]; for any other integer it raises the assertion error
    and leaves the object, hence the port, as it was. *)
Theorem changeParadigm_emits (p : Z) :
  (1 <= p <= 8 ->
   forall name log,
     changeParadigm (Num (Int p)) (online name log)
     = (online name (log ++ ["A " ++ digits p ++ " E"]), inr tt))
  /\ (~ 1 <= p <= 8 ->
      forall self,
        changeParadigm (Num (Int p)) self = (self, inl AssertionError)).
Proof.
  unfold changeParadigm, paradigms. split; intros Hp; intros.
  - rewrite bind_assert, contains_range_Int.
    replace ((1 <=? p) && (p <? 9)) with true
      by (symmetry; apply andb_true_iff; split; [apply Z.leb_le | apply Z.ltb_lt]; lia).
    apply write_online.
  - rewrite bind_assert, contains_range_Int.
    replace ((1 <=? p) && (p <? 9)) with false; [reflexivity|].
    symmetry. apply andb_false_iff.
    destruct (Z.leb_spec 1 p); [right; apply Z.ltb_ge; lia | now left].
Qed.

Lemma changeParadigm_emits_witness :
  changeParadigm (Num (Int 3)) (online None []) = (online None ["A 3 E"], inr tt)
  /\ changeParadigm (Num (Int 9)) (online None []) = (online None [], inl AssertionError).
Proof.
  split.
  - apply (proj1 (changeParadigm_emits 3)). lia.
  - apply (proj2 (changeParadigm_emits 9)). lia.
Defined.

End Paradigm.

Section ChannelMode.

Lemma modes_tokens (i : Z) (t : string) :
  0 <= i <= 5 -> nth_error modes (Z.to_nat i) = Some (Str t) ->
  contains cmList (Num (Int i)) = true
  /\ getitem modes (Num (Int i)) = inr (Str t)
  /\ contains cmList (Str t) = false
  /\ contains modes (Str t) = true.
Proof.
  intros Hi Ht.
  assert (Hc : i = 0 \/ i = 1 \/ i = 2 \/ i = 3 \/ i = 4 \/ i = 5) by lia.
  destruct Hc as [->|[->|[->|[->|[->| ->]]]]];
    cbn in Ht; injection Ht as <-; repeat split.
Qed.

(** C5. On a channel from 1 to 8, a mode given as an index [i] from 0 to 5
    and the same mode given as the [i]-th token [t] of the mode list run
    identically and send [t channel E]; [changeChannelMode(3, 2)] and
    [changeChannelMode(3, TRAIN)] both send [N 3 E]. A mode that is neither in
    the index list nor in the token list raises the assertion error, with
    nothing sent. *)
Theorem changeChannelMode_index_or_token :
  (forall (channel i : Z) (t : string),
      1 <= channel <= 8 -> 0 <= i <= 5 ->
      nth_error modes (Z.to_nat i) = Some (Str t) ->
      (forall self,
          changeChannelMode (Num (Int channel)) (Num (Int i)) self
          = changeChannelMode (Num (Int channel)) (Str t) self)
      /\ (forall name log,
             changeChannelMode (Num (Int channel)) (Str t) (online name log)
             = (online name (log ++ [t ++ " " ++ digits channel ++ " E"]), inr tt)))
  /\ (changeChannelMode (Num (Int 3)) (Num (Int 2)) (online None [])
      = (online None ["N 3 E"], inr tt)
      /\ changeChannelMode (Num (Int 3)) (Str TRAIN) (online None [])
         = (online None ["N 3 E"], inr tt))
  /\ (forall (channel mode : value) (self : Master8),
         contains cmList mode = false -> contains modes mode = false ->
         changeChannelMode channel mode self = (self, inl AssertionError)).
Proof.
  split; [|split].
  - intros channel i t Hch Hi Ht.
    destruct (modes_tokens i t Hi Ht) as (Hin & Hget & Hnot & Htok).
    assert (Hc : contains channels (Num (Int channel)) = true).
    { unfold channels. rewrite contains_range_Int.
      apply andb_true_iff; split; [apply Z.leb_le | apply Z.ltb_lt]; lia. }
    split; intros; unfold changeChannelMode; rewrite !bind_assert, !Hc.
    + rewrite Hin, Hnot, Htok, bind_lift, Hget. reflexivity.
    + rewrite Hnot, Htok. apply write_online.
  - split; reflexivity.
  - intros channel mode self Hi Ht. unfold changeChannelMode.
    rewrite bind_assert, Hi, Ht.
    now destruct (contains channels channel).
Qed.

Lemma changeChannelMode_index_or_token_witness :
  changeChannelMode (Num (Int 8)) (Num (Int 5)) (online None ["A 1 E"])
  = (online None ["A 1 E"; "T 8 E"], inr tt)
  /\ changeChannelMode (Num (Int 8)) (Str "T") (online None ["A 1 E"])
     = (online None ["A 1 E"; "T 8 E"], inr tt)
  /\ changeChannelMode (Num (Int 8)) (Str "Q") (online None ["A 1 E"])
     = (online None ["A 1 E"], inl AssertionError).
Proof.
  destruct changeChannelMode_index_or_token as (Hsame & _ & Hfail).
  destruct (Hsame 8 5 "T") as [Heq Hout]; [lia | lia | reflexivity |].
  split; [|split].
  - rewrite Heq. apply Hout.
  - apply Hout.
  - apply Hfail; reflexivity.
Defined.

End ChannelMode.

(* ================================================================== *)
(** ** The connection *)
(* ================================================================== *)

Section Connection.

(** C8. [connected] reads what the port answers to [isOpen]; assigning a
    false value closes the port, after which [connected] reads false;
    assigning a true value changes nothing, so it opens no port. *)
Theorem connected_reflects_port (p : Serial.t) (v : value) :
  connected {| c := Some p |} = ({| c := Some p |}, inr (Serial.isOpen p))
  /\ (falsy v = true ->
      set_connected v {| c := Some p |} = ({| c := Some (Serial.close p) |}, inr tt)
      /\ connected {| c := Some (Serial.close p) |}
         = ({| c := Some (Serial.close p) |}, inr false))
  /\ (falsy v = false ->
      set_connected v {| c := Some p |} = ({| c := Some p |}, inr tt)).
Proof.
  split; [reflexivity|].
  split; intros Hv; unfold set_connected; rewrite Hv.
  - split; reflexivity.
  - reflexivity.
Qed.

Lemma connected_reflects_port_witness :
  set_connected (Bool false) (online (Some "/dev/ttyS0") ["A 1 E"])
  = ({| c := Some (Serial.mk (Some "/dev/ttyS0") false ["A 1 E"]) |}, inr tt)
  /\ set_connected (Bool true) {| c := Some Serial.Serial |}
     = ({| c := Some Serial.Serial |}, inr tt).
Proof.
  split.
  - apply (proj1 (proj2 (connected_reflects_port
             (Serial.mk (Some "/dev/ttyS0") true ["A 1 E"]) (Bool false)))).
    reflexivity.
  - apply (proj2 (proj2 (connected_reflects_port Serial.Serial (Bool true)))).
    reflexivity.
Defined.

(** C7. An argument of an unrecognised kind does not make [__init__] fail:
    it prints a line and returns an object whose connection is unset, on
    which every write raises [AttributeError]. *)
Theorem init_unknown_connection (r : string) :
  init (ConnOther r) = (["Unknown connection: " ++ r], inr {| c := None |})
  /\ (forall args, write args {| c := None |} = ({| c := None |}, inl AttributeError))
  /\ connected {| c := None |} = ({| c := None |}, inl AttributeError).
Proof. repeat split. Qed.

End Connection.

(* ================================================================== *)
(** ** Intervals *)
(* ================================================================== *)

Section Intervals.

(** C4. Within its bounds, [writeInterval] formats the value with [res]
    decimals, removes the zeros at the end and then the point at the end, and
    sends the result followed by [E 0 E] as one message. The formatted text of
    a finite float is a sign, an integer part, a point and exactly [res]
    digits, for the integer nearest to the value scaled by [10^res]. 0.00004
    with minimum 40e-6 is sent as [0.00004 E 0 E], 1.0 is formatted as
    [1.000000] and sent as [1], and 39e-6 with minimum 40e-6 raises the
    assertion error. *)
Theorem writeInterval_format :
  (forall (f : num) (minf maxf : option num) (res : Z) (t : string)
          (name : option string) (log : list string),
      match minf with Some lo => geb f lo | None => true end = true ->
      match maxf with Some hi => leb f hi | None => true end = true ->
      format_f res f = inr t ->
      writeInterval f minf maxf res (online name log)
      = (online name (log ++ [interval_message t]), inr tt)
      /\ exists (u : string) (j k : nat),
          interval_message t = u ++ " E 0 E"
          /\ t = u ++ repeat_char "." j ++ repeat_char "0" k
          /\ ends_with "." u = false
          /\ (j = O -> ends_with "0" u = false))
  /\ (forall (res : Z) (s : bool) (m : positive) (e : Z),
         0 < res ->
         exists n : Z,
           Z.abs (2 * (n * snd (scaled m e res) - fst (scaled m e res)))
           <= snd (scaled m e res)
           /\ format_f res (Float (S754_finite s m e))
              = inr (sign_text s ++ digits (n / 10 ^ res) ++ "."
                     ++ frac_text (Z.to_nat res) (n mod 10 ^ res))
           /\ String.length (frac_text (Z.to_nat res) (n mod 10 ^ res))
              = Z.to_nat res)
  /\ writeInterval (Float (literal 4 (-5))) (Some (Float (literal 40 (-6))))
                   interval_maxf interval_res (online None [])
     = (online None ["0.00004 E 0 E"], inr tt)
  /\ (format_f 6 (Float (literal 1 0)) = inr "1.000000"
      /\ interval_message "1.000000" = "1 E 0 E"
      /\ format_f 6 (Float (literal 123 (-2))) = inr "1.230000"
      /\ interval_message "1.230000" = "1.23 E 0 E")
  /\ (forall self,
         writeInterval (Float (literal 39 (-6))) (Some (Float (literal 40 (-6))))
                       interval_maxf interval_res self
         = (self, inl AssertionError)).
Proof.
  split; [|split; [|split; [|split]]].
  - intros f minf maxf res t name log Hlo Hhi Ht.
    split; [now apply writeInterval_within|].
    destruct (rstrip_spec "0" t) as [k [Hk Hz]].
    destruct (rstrip_spec "." (rstrip "0" t)) as [j [Hj Hd]].
    exists (rstrip "." (rstrip "0" t)), j, k.
    split; [reflexivity|]. split; [|split].
    + rewrite Hk at 1. rewrite Hj at 1.
      clear. induction (rstrip "." (rstrip "0" t)) as [|a s IH]; cbn;
        [reflexivity | now rewrite IH].
    + exact Hd.
    + intros ->. cbn in Hj. rewrite Hj in Hz. clear -Hz.
      induction (rstrip "." (rstrip "0" t)) as [|a s IH]; [reflexivity|].
      cbn in Hz |- *. destruct s; [exact Hz | apply IH, Hz].
  - intros res s m e Hres.
    destruct (format_f_float_fixed res s m e Hres) as [n (Hn & Htxt & Hlen)].
    exists n. split; [exact Hn|]. split; [|exact Hlen].
    rewrite format_f_Float, Htxt.
    destruct (Z.ltb_spec res 0); [lia | reflexivity].
  - vm_compute. reflexivity.
  - repeat split; vm_compute; reflexivity.
  - intros self. unfold writeInterval.
    rewrite bind_assert_bound.
    replace (geb (Float (literal 39 (-6))) (Float (literal 40 (-6)))) with false
      by (vm_compute; reflexivity).
    reflexivity.
Qed.

Lemma writeInterval_format_witness :
  writeInterval (Float (literal 25 (-1))) interval_minf interval_maxf interval_res
                (online None ["I 2"])
  = (online None ["I 2"; "2.5 E 0 E"], inr tt).
Proof.
  apply (proj1 (proj1 writeInterval_format
                  (Float (literal 25 (-1))) interval_minf interval_maxf interval_res
                  "2.500000" None ["I 2"]
                  ltac:(vm_compute; reflexivity) ltac:(vm_compute; reflexivity)
                  ltac:(vm_compute; reflexivity))).
Defined.

(** C10. With the maximum left at its default, [writeInterval] raises the
    assertion error on every value above 3999 and writes nothing; so
    [setChannelDuration], [setChannelInterval] and [setChannelDelay] stop
    after their header, the interval itself unsent. *)
Theorem interval_default_maximum (f : num) :
  ltb (Int 3999) f = true ->
  (forall minf res self,
      writeInterval f minf interval_maxf res self = (self, inl AssertionError))
  /\ (forall channel name log,
         setChannelDuration channel f (online name log)
         = (online name (log ++ [join " " [DURATION; str channel]]), inl AssertionError)
         /\ setChannelInterval channel f (online name log)
            = (online name (log ++ [join " " [INTERVAL; str channel]]), inl AssertionError)
         /\ setChannelDelay channel f (online name log)
            = (online name (log ++ [join " " [DELAY; str channel]]), inl AssertionError)).
Proof.
  intros Hf. split.
  - intros. now apply writeInterval_above.
  - intros channel name log.
    unfold setChannelDuration, setChannelInterval, setChannelDelay.
    rewrite !bind_write_online. unfold interval_maxf.
    rewrite !writeInterval_above by exact Hf.
    repeat split.
Qed.

Lemma interval_default_maximum_witness :
  setChannelDelay (Num (Int 2)) (Int 4000) (online None [])
  = (online None ["L 2"], inl AssertionError).
Proof.
  apply (proj2 (interval_default_maximum (Int 4000) ltac:(reflexivity))
               (Num (Int 2)) None []).
Defined.

(** C3, as the code has it. A duration from 40e-6 to 3999 is accepted for
    any channel value: [setChannelDuration] sends [D channel] and then the
    interval message; likewise [setChannelInterval] from 60e-6 and
    [setChannelDelay] from 100e-6, all three up to 3999. *)
Theorem setChannel_interval_accepted (channel : value) (d : num)
        (name : option string) (log : list string) :
  leb d (Int 3999) = true ->
  (geb d (Float (literal 40 (-6))) = true ->
   exists t, format_f 6 d = inr t
             /\ setChannelDuration channel d (online name log)
                = (online name (log ++ [join " " [DURATION; str channel];
                                        interval_message t]), inr tt))
  /\ (geb d (Float (literal 60 (-6))) = true ->
      exists t, format_f 6 d = inr t
                /\ setChannelInterval channel d (online name log)
                   = (online name (log ++ [join " " [INTERVAL; str channel];
                                           interval_message t]), inr tt))
  /\ (geb d (Float (literal 100 (-6))) = true ->
      exists t, format_f 6 d = inr t
                /\ setChannelDelay channel d (online name log)
                   = (online name (log ++ [join " " [DELAY; str channel];
                                           interval_message t]), inr tt)).
Proof.
  intros Hhi.
  unfold setChannelDuration, setChannelInterval, setChannelDelay.
  rewrite literal_40us, literal_60us, literal_100us.
  repeat split; intros Hlo;
    destruct (format_f_interval d _ _ Hlo Hhi) as [t Ht];
    exists t; (split; [exact Ht|]);
    rewrite bind_write_online;
    rewrite (writeInterval_within d (Some _) (Some _) interval_res t name _ Hlo Hhi Ht);
    now rewrite <- app_assoc.
Qed.

Lemma setChannel_interval_accepted_witness :
  exists t, format_f 6 (Float (literal 1 (-3))) = inr t
            /\ setChannelDuration (Num (Int 1)) (Float (literal 1 (-3))) (online None [])
               = (online None [join " " [DURATION; "1"]; interval_message t], inr tt).
Proof.
  apply (proj1 (setChannel_interval_accepted (Num (Int 1)) (Float (literal 1 (-3)))
                  None [] ltac:(vm_compute; reflexivity))).
  vm_compute. reflexivity.
Defined.

(** C3, as the specification has it, fails: 4000.0 is at least 40e-6, and
    [setChannelDuration(1, 4000.0)] raises after sending [D 1]. *)
Lemma setChannelDuration_unbounded_counterexample :
  geb (Float (literal 4000 0)) (Float (literal 40 (-6))) = true
  /\ setChannelDuration (Num (Int 1)) (Float (literal 4000 0)) (online None [])
     = (online None ["D 1"], inl AssertionError).
Proof. split; vm_compute; reflexivity. Qed.

(** C1. The methods that go through [writeInterval] or [writeVoltage] send
    their header before the bounds are checked: a duration of one
    microsecond and a voltage of 13 both raise the assertion error with the
    header already on the wire; and [setChannelDuration] does not check its
    channel at all. The methods with a single message check first: whenever
    one of them raises, the object is as it was. *)
Theorem header_sent_before_validation :
  setChannelDuration (Num (Int 1)) (Float (literal 1 (-6))) (online None [])
  = (online None ["D 1"], inl AssertionError)
  /\ setChannelVoltage (Num (Int 1)) (Float (literal 13 0)) (online None [])
     = (online None ["V 1"], inl AssertionError)
  /\ setChannelDuration (Num (Int 9)) (Float (literal 1 (-3))) (online None [])
     = (online None ["D 9"; "0.001 E 0 E"], inr tt)
  /\ (forall (a b : value) (self self' : Master8) (e : exn),
         changeParadigm a self = (self', inl e)
         \/ changeChannelMode a b self = (self', inl e)
         \/ trigger a self = (self', inl e)
         \/ copyParadigm a b self = (self', inl e)
         \/ connectChannel a b self = (self', inl e)
         \/ disconnectChannel a b self = (self', inl e) ->
         self' = self).
Proof.
  split; [vm_compute; reflexivity|].
  split; [vm_compute; reflexivity|].
  split; [vm_compute; reflexivity|].
  intros a b self self' e H.
  destruct H as [H|[H|[H|[H|[H|H]]]]]; revert H;
    [ apply (keeps_changeParadigm a)
    | apply (keeps_changeChannelMode a b)
    | apply (keeps_trigger a)
    | apply (keeps_copyParadigm a b)
    | apply (keeps_connectChannel a b)
    | apply (keeps_disconnectChannel a b) ].
Qed.

End Intervals.

(* ================================================================== *)
(** ** Voltages *)
(* ================================================================== *)

Section Voltage.

(** C2, as the code has it. Within its bounds, [writeVoltage] sends three
    messages, or two: the text of [round(abs(f), res)] followed by [E]; then
    [-] alone when [f] is negative; then [E] alone, whatever the sign. With
    the default bounds and precision the rounding cannot fail, so every
    voltage from -12.7 to 12.7 is sent in this way. *)
Theorem writeVoltage_emits :
  (forall (f : num) (minf maxf : option num) (res : Z) (r : float)
          (name : option string) (log : list string),
      match minf with Some lo => geb f lo | None => true end = true ->
      match maxf with Some hi => leb f hi | None => true end = true ->
      round (abs f) res = inr r ->
      writeVoltage f minf maxf res (online name log)
      = (online name (log ++ [str_float r ++ " E"]
                          ++ (if ltb f (Int 0) then ["-"] else [])
                          ++ ["E"]),
         inr tt))
  /\ (forall (f : num) (name : option string) (log : list string),
         geb f (Float (SFopp (literal 127 (-1)))) = true ->
         leb f (Float (literal 127 (-1))) = true ->
         exists r,
           round (abs f) 1 = inr r
           /\ writeVoltage f voltage_minf voltage_maxf voltage_res (online name log)
              = (online name (log ++ [str_float r ++ " E"]
                                  ++ (if ltb f (Int 0) then ["-"] else [])
                                  ++ ["E"]),
                 inr tt)).
Proof.
  assert (Hgen : forall f minf maxf res r name log,
      match minf with Some lo => geb f lo | None => true end = true ->
      match maxf with Some hi => leb f hi | None => true end = true ->
      round (abs f) res = inr r ->
      writeVoltage f minf maxf res (online name log)
      = (online name (log ++ [str_float r ++ " E"]
                          ++ (if ltb f (Int 0) then ["-"] else [])
                          ++ ["E"]),
         inr tt)).
  { intros f minf maxf res r name log Hlo Hhi Hr. unfold writeVoltage.
    assert (Htail : forall l,
      ((if ltb f (Int 0) then write [Str "-"] else ret tt) ;; write [Str ENTER])
        (online name l)
      = (online name (l ++ (if ltb f (Int 0) then ["-"] else []) ++ ["E"]), inr tt)).
    { intros l. destruct (ltb f (Int 0)).
      - rewrite bind_write_online, write_online, <- app_assoc. reflexivity.
      - apply write_online. }
    assert (Hhead : forall l,
      (r0 <- lift (round (abs f) res) ;;
       write [Num (Float r0); Str ENTER] ;;
       (if ltb f (Int 0) then write [Str "-"] else ret tt) ;; write [Str ENTER])
        (online name l)
      = (online name (l ++ [str_float r ++ " E"]
                        ++ (if ltb f (Int 0) then ["-"] else []) ++ ["E"]), inr tt)).
    { intros l. rewrite bind_lift, Hr, bind_write_online, Htail, <- app_assoc.
      reflexivity. }
    rewrite bind_assert_bound.
    destruct minf as [lo|]; [rewrite Hlo|];
      (rewrite bind_assert_bound; destruct maxf as [hi|]; [rewrite Hhi|]);
      apply Hhead. }
  split; [exact Hgen|].
  intros f name log Hlo Hhi.
  destruct (round_voltage_total f Hlo Hhi) as [r Hr].
  exists r. split; [exact Hr|].
  now apply Hgen.
Qed.

Lemma writeVoltage_emits_witness :
  writeVoltage (Float (SFopp (literal 5 0))) voltage_minf voltage_maxf voltage_res
               (online None [])
  = (online None ["5.0 E"; "-"; "E"], inr tt)
  /\ exists r,
      round (abs (Float (literal 5 0))) 1 = inr r
      /\ writeVoltage (Float (literal 5 0)) voltage_minf voltage_maxf voltage_res
                      (online None [])
         = (online None ([] ++ [str_float r ++ " E"] ++ [] ++ ["E"]), inr tt).
Proof.
  split.
  - apply (proj1 writeVoltage_emits (Float (SFopp (literal 5 0))) voltage_minf
             voltage_maxf voltage_res (literal 5 0) None []);
      vm_compute; reflexivity.
  - apply (proj2 writeVoltage_emits (Float (literal 5 0)) None []);
      vm_compute; reflexivity.
Defined.

(** C2, as the specification has it, fails: [writeVoltage(5.0)] sends
    [5.0 E] and then a second [E], not [5 E] alone; and the stream of
    [writeVoltage(-5.0)] is [5.0 E-E], not [5 E - E]. *)
Lemma writeVoltage_single_enter_counterexample :
  let pos := written (fst (writeVoltage (Float (literal 5 0)) voltage_minf voltage_maxf
                                        voltage_res (online None []))) in
  let neg := written (fst (writeVoltage (Float (SFopp (literal 5 0))) voltage_minf
                                        voltage_maxf voltage_res (online None []))) in
  pos = ["5.0 E"; "E"] /\ pos <> ["5 E"] /\ String.concat "" pos <> "5 E"
  /\ neg = ["5.0 E"; "-"; "E"] /\ String.concat "" neg <> "5 E - E".
Proof. vm_compute. repeat split; discriminate. Qed.

End Voltage.

(* ================================================================== *)
(** ** What no command does to the port *)
(* ================================================================== *)

Section PortInvariants.

Lemma grows_refl (self : Master8) : grows self self.
Proof.
  unfold grows. destruct (c self) as [p|]; [|exact I].
  split; [reflexivity|]. split; [reflexivity|].
  exists []. now rewrite app_nil_r.
Qed.

Lemma grows_trans (s1 s2 s3 : Master8) : grows s1 s2 -> grows s2 s3 -> grows s1 s3.
Proof.
  unfold grows.
  destruct (c s1) as [p1|], (c s2) as [p2|], (c s3) as [p3|]; try tauto.
  intros (Hn & Ho & l & Hl) (Hn' & Ho' & l' & Hl').
  split; [congruence|]. split; [congruence|].
  exists (l ++ l')%list. now rewrite Hl', Hl, app_assoc.
Qed.

Lemma appends_only_ret {A : Type} (a : A) : appends_only (ret a).
Proof. intros self self' r H. injection H as <- _. apply grows_refl. Qed.

Lemma appends_only_raise {A : Type} (e : exn) : appends_only (@raise A e).
Proof. intros self self' r H. injection H as <- _. apply grows_refl. Qed.

Lemma appends_only_assert (b : bool) : appends_only (assert b).
Proof. destruct b; [apply appends_only_ret | apply appends_only_raise]. Qed.

Lemma appends_only_assert_bound (test : num -> bool) (m : option num) :
  appends_only (assert_bound test m).
Proof. destruct m; [apply appends_only_assert | apply appends_only_ret]. Qed.

Lemma appends_only_lift {A : Type} (r : result A) : appends_only (lift r).
Proof. destruct r; [apply appends_only_raise | apply appends_only_ret]. Qed.

Lemma appends_only_write (args : list value) : appends_only (write args).
Proof.
  intros self self' r. unfold write, bind, get_c, grows.
  destruct (c self) as [p|] eqn:E.
  - unfold Serial.write. destruct (Serial.is_open p) eqn:Ho; intros H.
    + injection H as <- _. cbn. split; [reflexivity|]. split; [reflexivity|]. eauto.
    + injection H as <- _. rewrite E.
      split; [reflexivity|]. split; [congruence|].
      exists []. now rewrite app_nil_r.
  - intros H. injection H as <- _. now rewrite E.
Qed.

Lemma appends_only_bind {A B : Type} (m : Cmd A) (k : A -> Cmd B) :
  appends_only m -> (forall a, appends_only (k a)) -> appends_only (bind m k).
Proof.
  intros Hm Hk self self' r. unfold bind.
  destruct (m self) as [s1 [e|a]] eqn:E; intros H.
  - injection H as <- _. exact (Hm _ _ _ E).
  - exact (grows_trans _ _ _ (Hm _ _ _ E) (Hk a _ _ _ H)).
Qed.

Lemma appends_only_if {A : Type} (b : bool) (m1 m2 : Cmd A) :
  appends_only m1 -> appends_only m2 -> appends_only (if b then m1 else m2).
Proof. now destruct b. Qed.

Lemma appends_only_writeInterval (f : num) (minf maxf : option num) (res : Z) :
  appends_only (writeInterval f minf maxf res).
Proof.
  unfold writeInterval.
  repeat first [ apply appends_only_write
               | apply appends_only_assert_bound
               | apply appends_only_lift
               | apply appends_only_bind; [|intros ?]
               | progress cbv zeta ].
Qed.

Lemma appends_only_writeVoltage (f : num) (minf maxf : option num) (res : Z) :
  appends_only (writeVoltage f minf maxf res).
Proof.
  unfold writeVoltage.
  repeat first [ apply appends_only_write
               | apply appends_only_assert_bound
               | apply appends_only_lift
               | apply appends_only_ret
               | apply appends_only_if
               | apply appends_only_bind; [|intros ?] ].
Qed.

Lemma appends_only_get_c : appends_only get_c.
Proof.
  intros self self' r. unfold get_c.
  destruct (c self); intros H; injection H as <- _; apply grows_refl.
Qed.

End PortInvariants.

Ltac appends :=
  repeat first [ apply appends_only_write
               | apply appends_only_writeInterval
               | apply appends_only_writeVoltage
               | apply appends_only_get_c
               | apply appends_only_assert
               | apply appends_only_lift
               | apply appends_only_ret
               | apply appends_only_if
               | apply appends_only_bind; [|intros ?] ].

Ltac appends_cmd :=
  unfold connected, changeParadigm, changeChannelMode, setChannelDuration,
    setChannelInterval, setChannelDelay, setChannelM, setChannelVoltage,
    trigger, clearParadigm, copyParadigm, connectChannel, disconnectChannel;
  appends.

Section AppendOnly.

(** X1. No command does anything to the object but append to the log of
    its port: the connection stays set or unset, the port keeps its name and
    its open flag, and every message sent before is still there, in order,
    whether the command returns or raises. *)
Theorem commands_append_only :
  (forall args, appends_only (write args))
  /\ (forall f minf maxf res, appends_only (writeInterval f minf maxf res))
  /\ (forall f minf maxf res, appends_only (writeVoltage f minf maxf res))
  /\ appends_only connected
  /\ (forall p, appends_only (changeParadigm p))
  /\ (forall ch mode, appends_only (changeChannelMode ch mode))
  /\ (forall ch d, appends_only (setChannelDuration ch d))
  /\ (forall ch i, appends_only (setChannelInterval ch i))
  /\ (forall ch d, appends_only (setChannelDelay ch d))
  /\ (forall ch m, appends_only (setChannelM ch m))
  /\ (forall ch v, appends_only (setChannelVoltage ch v))
  /\ (forall ch, appends_only (trigger ch))
  /\ appends_only clearParadigm
  /\ (forall a b, appends_only (copyParadigm a b))
  /\ (forall a b, appends_only (connectChannel a b))
  /\ (forall a b, appends_only (disconnectChannel a b)).
Proof. repeat split; intros; appends_cmd. Qed.

(** The setter of [connected] leaves the log alone, and [close] on a closed
    port changes nothing. *)
Lemma close_closed (p : Serial.t) : Serial.is_open p = false -> Serial.close p = p.
Proof. destruct p as [n o l]. cbn. now intros ->. Qed.

Lemma set_connected_written (v : value) (self : Master8) :
  written (fst (set_connected v self)) = written self.
Proof.
  unfold set_connected, bind, get_c, written.
  now destruct self as [[p|]]; destruct (falsy v).
Qed.

Lemma set_connected_offline (v : value) (self : Master8) :
  offline self = true -> fst (set_connected v self) = self.
Proof.
  unfold set_connected, bind, get_c, offline.
  destruct self as [[p|]]; destruct (falsy v); cbn; try reflexivity.
  intros H. apply negb_true_iff in H. unfold Serial.isOpen in H.
  now rewrite close_closed.
Qed.

(** X2. Assigning to [connected] never sends anything and never opens a
    port: a false value leaves the port closed (or raises [AttributeError]
    when the connection is unset), a true value leaves the object as it
    is. *)
Theorem setter_only_closes (v : value) (self : Master8) :
  written (fst (set_connected v self)) = written self
  /\ (falsy v = true -> offline (fst (set_connected v self)) = true)
  /\ (falsy v = false -> set_connected v self = (self, inr tt))
  /\ (offline self = true -> fst (set_connected v self) = self).
Proof.
  unfold set_connected, bind, get_c, written, offline.
  destruct self as [[p|]]; destruct (falsy v); cbn; repeat split;
    try discriminate; try reflexivity.
  intros H. apply negb_true_iff in H. unfold Serial.isOpen in H.
  now rewrite close_closed.
Qed.

Lemma setter_only_closes_witness :
  offline (fst (set_connected (Num (Int 0)) (online None ["A 1 E"]))) = true
  /\ set_connected (Str "yes") {| c := Some Serial.Serial |}
     = ({| c := Some Serial.Serial |}, inr tt).
Proof.
  split.
  - apply (proj1 (proj2 (setter_only_closes (Num (Int 0)) (online None ["A 1 E"])))).
    reflexivity.
  - apply (proj1 (proj2 (proj2 (setter_only_closes (Str "yes")
                                   {| c := Some Serial.Serial |})))).
    reflexivity.
Defined.

End AppendOnly.

(* ================================================================== *)
(** ** Without a usable port *)
(* ================================================================== *)

Section Offline.

Lemma needs_port_write (args : list value) : needs_port (write args).
Proof.
  intros self. unfold offline, write, bind, get_c, Serial.write, Serial.isOpen.
  destruct (c self) as [p|]; [|eauto].
  intros H. apply negb_true_iff in H. rewrite H. eauto.
Qed.

Lemma needs_port_raise {A : Type} (e : exn) : needs_port (@raise A e).
Proof. intros self _. now exists e. Qed.

Lemma needs_port_bind {A B : Type} (m : Cmd A) (k : A -> Cmd B) :
  needs_port m -> needs_port (bind m k).
Proof.
  intros Hm self Hoff. destruct (Hm self Hoff) as [e He].
  exists e. unfold bind. now rewrite He.
Qed.

Lemma needs_port_assert_bind {A : Type} (b : bool) (k : Cmd A) :
  needs_port k -> needs_port (assert b ;; k).
Proof.
  intros Hk self Hoff. rewrite bind_assert. destruct b; [now apply Hk | eauto].
Qed.

Lemma needs_port_assert_bound_bind {A : Type} (test : num -> bool) (m : option num)
      (k : Cmd A) :
  needs_port k -> needs_port (assert_bound test m ;; k).
Proof.
  intros Hk self Hoff. rewrite bind_assert_bound.
  destruct m as [b|]; [destruct (test b)|]; eauto.
Qed.

Lemma needs_port_lift_bind {A B : Type} (r : result A) (k : A -> Cmd B) :
  (forall a, needs_port (k a)) -> needs_port (x <- lift r ;; k x).
Proof.
  intros Hk self Hoff. rewrite bind_lift.
  destruct r as [e|a]; [eauto | now apply Hk].
Qed.

Lemma needs_port_writeInterval (f : num) (minf maxf : option num) (res : Z) :
  needs_port (writeInterval f minf maxf res).
Proof.
  unfold writeInterval.
  do 2 apply needs_port_assert_bound_bind.
  apply needs_port_lift_bind. intros t. apply needs_port_write.
Qed.

Lemma needs_port_writeVoltage (f : num) (minf maxf : option num) (res : Z) :
  needs_port (writeVoltage f minf maxf res).
Proof.
  unfold writeVoltage.
  do 2 apply needs_port_assert_bound_bind.
  apply needs_port_lift_bind. intros r.
  apply needs_port_bind, needs_port_write.
Qed.

Lemma needs_port_changeChannelMode (channel mode : value) :
  needs_port (changeChannelMode channel mode).
Proof.
  unfold changeChannelMode. apply needs_port_assert_bind.
  destruct (contains cmList mode).
  - apply needs_port_lift_bind. intros t. apply needs_port_write.
  - destruct (contains modes mode); [apply needs_port_write|].
    apply needs_port_raise.
Qed.

End Offline.

Ltac offline_cmd :=
  first [ apply needs_port_write
        | apply needs_port_writeInterval
        | apply needs_port_writeVoltage
        | apply needs_port_changeChannelMode
        | unfold changeParadigm, setChannelDuration, setChannelInterval,
            setChannelDelay, setChannelM, setChannelVoltage, trigger,
            clearParadigm, copyParadigm, connectChannel, disconnectChannel;
          repeat first [ apply needs_port_write
                       | apply needs_port_assert_bind
                       | apply needs_port_bind ] ].

Section NoPort.

(** X3. Without a usable port (connection unset, or port closed) every
    command raises and leaves the object as it was: nothing is queued and
    nothing is sent. *)
Theorem commands_need_port :
  (forall args, needs_port (write args))
  /\ (forall f minf maxf res, needs_port (writeInterval f minf maxf res))
  /\ (forall f minf maxf res, needs_port (writeVoltage f minf maxf res))
  /\ (forall p, needs_port (changeParadigm p))
  /\ (forall ch mode, needs_port (changeChannelMode ch mode))
  /\ (forall ch d, needs_port (setChannelDuration ch d))
  /\ (forall ch i, needs_port (setChannelInterval ch i))
  /\ (forall ch d, needs_port (setChannelDelay ch d))
  /\ (forall ch m, needs_port (setChannelM ch m))
  /\ (forall ch v, needs_port (setChannelVoltage ch v))
  /\ (forall ch, needs_port (trigger ch))
  /\ needs_port clearParadigm
  /\ (forall a b, needs_port (copyParadigm a b))
  /\ (forall a b, needs_port (connectChannel a b))
  /\ (forall a b, needs_port (disconnectChannel a b)).
Proof. repeat split; intros; offline_cmd. Qed.

End NoPort.

(* ================================================================== *)
(** ** Sessions *)
(* ================================================================== *)

Section Sessions.

Lemma grows_written (self self' : Master8) :
  grows self self' -> exists msgs : list string, written self' = (written self ++ msgs)%list.
Proof.
  unfold grows, written.
  destruct (c self) as [p|], (c self') as [p'|]; try tauto.
  intros _. now exists [].
Qed.

Lemma appends_only_fst {A : Type} (m : Cmd A) (self : Master8) :
  appends_only m -> grows self (fst (m self)).
Proof. intros H. destruct (m self) as [s' r] eqn:E. exact (H _ _ _ E). Qed.

Lemma needs_port_fst {A : Type} (m : Cmd A) (self : Master8) :
  needs_port m -> offline self = true -> fst (m self) = self.
Proof. intros H Hoff. destruct (H self Hoff) as [e ->]. reflexivity. Qed.

(** One call only adds to the log. *)
Lemma perform_written (k : call) (self : Master8) :
  exists msgs : list string, written (perform k self) = (written self ++ msgs)%list.
Proof.
  destruct k; cbn [perform];
    try (apply grows_written, appends_only_fst; appends_cmd; fail).
  exists []. rewrite app_nil_r. apply set_connected_written.
Qed.

(** One call on an object without a usable port changes nothing. *)
Lemma perform_offline (k : call) (self : Master8) :
  offline self = true -> perform k self = self.
Proof.
  intros Hoff.
  destruct k; cbn [perform];
    try (apply needs_port_fst; [offline_cmd | exact Hoff]; fail).
  - unfold connected, bind, get_c. now destruct (c self).
  - now apply set_connected_offline.
Qed.

(** X4. Whatever the calls and whichever of them raise, a session only adds
    to what the port has carried: every message sent before the session is
    still there, in order, at the head of the log. *)
Theorem session_keeps_log (ks : list call) (self : Master8) :
  exists msgs : list string, written (session ks self) = (written self ++ msgs)%list.
Proof.
  unfold session. revert self.
  induction ks as [|k ks IH]; intros self; cbn [fold_left].
  - exists []. now rewrite app_nil_r.
  - destruct (perform_written k self) as [l Hl].
    destruct (IH (perform k self)) as [l' Hl'].
    exists (l ++ l')%list. now rewrite Hl', Hl, app_assoc.
Qed.

(** X5. An encoder without a usable port is inert: no sequence of calls
    changes it, so nothing is ever sent and the port is never opened. This
    is the fate of the encoder built with no argument, and of the one built
    from an unrecognised argument. *)
Theorem offline_is_forever :
  (forall (ks : list call) (self : Master8),
      offline self = true -> session ks self = self)
  /\ (forall (ks : list call),
         exists s0, init ConnNone = ([], inr s0)
                    /\ session ks s0 = s0
                    /\ connected (session ks s0) = (s0, inr false)
                    /\ written (session ks s0) = [])
  /\ (forall (ks : list call) (r : string),
         exists s0, snd (init (ConnOther r)) = inr s0
                    /\ session ks s0 = s0
                    /\ connected (session ks s0) = (s0, inl AttributeError)).
Proof.
  assert (Hinert : forall ks self, offline self = true -> session ks self = self).
  { unfold session. induction ks as [|k ks IH]; intros self Hoff; cbn [fold_left].
    - reflexivity.
    - rewrite (perform_offline k self Hoff). now apply IH. }
  split; [exact Hinert|]. split.
  - intros ks. eexists. split; [reflexivity|].
    rewrite Hinert by reflexivity. repeat split.
  - intros ks r. eexists. split; [reflexivity|].
    rewrite Hinert by reflexivity. repeat split.
Qed.

Lemma offline_is_forever_witness :
  session [SetConnected (Bool true); ChangeParadigm (Num (Int 1)); ClearParadigm]
          {| c := Some (Serial.mk None false ["A 1 E"]) |}
  = {| c := Some (Serial.mk None false ["A 1 E"]) |}.
Proof.
  apply (proj1 offline_is_forever). reflexivity.
Defined.

End Sessions.

(* ================================================================== *)
(** ** The single-message commands *)
(* ================================================================== *)

Section SingleMessage.

Lemma contains_1_to_8 (z : Z) :
  contains (range 1 9) (Num (Int z)) = true <-> 1 <= z <= 8.
Proof.
  rewrite contains_range_Int, andb_true_iff, Z.leb_le, Z.ltb_lt. lia.
Qed.

Lemma contains_not_1_to_8 (z : Z) :
  ~ 1 <= z <= 8 -> contains (range 1 9) (Num (Int z)) = false.
Proof.
  intros H. destruct (contains (range 1 9) (Num (Int z))) eqn:E; [|reflexivity].
  apply contains_1_to_8 in E. contradiction.
Qed.

Lemma digits_1_to_8 (z : Z) : 1 <= z <= 8 -> String.length (digits z) = 1%nat.
Proof.
  intros H.
  assert (Hc : z = 1 \/ z = 2 \/ z = 3 \/ z = 4 \/ z = 5 \/ z = 6 \/ z = 7 \/ z = 8)
    by lia.
  destruct Hc as [->|[->|[->|[->|[->|[->|[->| ->]]]]]]]; reflexivity.
Qed.

(** X6. [trigger] on a channel from 1 to 8 sends the channel number alone,
    one character and no [ENTER]; on any other integer it raises the
    assertion error, whatever the state of the port, and sends nothing. *)
Theorem trigger_emits (channel : Z) :
  (1 <= channel <= 8 ->
   String.length (digits channel) = 1%nat
   /\ forall name log,
       trigger (Num (Int channel)) (online name log)
       = (online name (log ++ [digits channel]), inr tt))
  /\ (~ 1 <= channel <= 8 ->
      forall self, trigger (Num (Int channel)) self = (self, inl AssertionError)).
Proof.
  unfold trigger, channels. split; intros H.
  - split; [now apply digits_1_to_8|]. intros name log.
    rewrite bind_assert, (proj2 (contains_1_to_8 channel) H).
    apply write_online.
  - intros self. now rewrite bind_assert, contains_not_1_to_8.
Qed.

Lemma trigger_emits_witness :
  trigger (Num (Int 4)) (online None []) = (online None ["4"], inr tt)
  /\ trigger (Num (Int 0)) (online None []) = (online None [], inl AssertionError).
Proof.
  split.
  - apply (proj1 (trigger_emits 4)). lia.
  - apply (proj2 (trigger_emits 0)). lia.
Defined.

(** A command of two checked arguments and one message. *)
Lemma checked_pair (l : list value) (key : string) (a b : value) (self : Master8) :
  (assert (contains l a) ;; assert (contains l b) ;;
   write [Str key; a; b; Str ENTER]) self
  = if contains l a && contains l b
    then write [Str key; a; b; Str ENTER] self
    else (self, inl AssertionError).
Proof.
  rewrite bind_assert. destruct (contains l a); [|reflexivity].
  rewrite bind_assert. now destruct (contains l b).
Qed.

(** X7. [copyParadigm], [connectChannel] and [disconnectChannel] send
    [A src dest E], [X src dest E] and [Z src dest E] when both arguments are
    from 1 to 8; when either is not, they raise the assertion error, whatever
    the state of the port, and send nothing. *)
Theorem pair_commands_emit (a b : Z) :
  (1 <= a <= 8 -> 1 <= b <= 8 ->
   forall name log,
     copyParadigm (Num (Int a)) (Num (Int b)) (online name log)
     = (online name (log ++ ["A " ++ digits a ++ " " ++ digits b ++ " E"]), inr tt)
     /\ connectChannel (Num (Int a)) (Num (Int b)) (online name log)
        = (online name (log ++ ["X " ++ digits a ++ " " ++ digits b ++ " E"]), inr tt)
     /\ disconnectChannel (Num (Int a)) (Num (Int b)) (online name log)
        = (online name (log ++ ["Z " ++ digits a ++ " " ++ digits b ++ " E"]), inr tt))
  /\ (~ (1 <= a <= 8 /\ 1 <= b <= 8) ->
      forall self,
        copyParadigm (Num (Int a)) (Num (Int b)) self = (self, inl AssertionError)
        /\ connectChannel (Num (Int a)) (Num (Int b)) self = (self, inl AssertionError)
        /\ disconnectChannel (Num (Int a)) (Num (Int b)) self
           = (self, inl AssertionError)).
Proof.
  unfold copyParadigm, connectChannel, disconnectChannel, paradigms, channels.
  split.
  - intros Ha Hb name log. rewrite !checked_pair.
    rewrite (proj2 (contains_1_to_8 a) Ha), (proj2 (contains_1_to_8 b) Hb).
    cbn [andb]. rewrite !write_online. repeat split.
  - intros H self. rewrite !checked_pair.
    assert (Hf : contains (range 1 9) (Num (Int a))
                 && contains (range 1 9) (Num (Int b)) = false).
    { apply andb_false_iff.
      destruct (Z_le_dec 1 a) as [Ha1|]; [|left; apply contains_not_1_to_8; lia].
      destruct (Z_le_dec a 8) as [Ha8|]; [|left; apply contains_not_1_to_8; lia].
      right. apply contains_not_1_to_8. lia. }
    rewrite Hf. repeat split.
Qed.

Lemma pair_commands_emit_witness :
  connectChannel (Num (Int 1)) (Num (Int 2)) (online None [])
  = (online None ["X 1 2 E"], inr tt)
  /\ connectChannel (Num (Int 9)) (Num (Int 1)) (online None [])
     = (online None [], inl AssertionError).
Proof.
  split.
  - apply (proj1 (pair_commands_emit 1 2)); lia.
  - apply (proj2 (pair_commands_emit 9 1)). lia.
Defined.

(** X8. [setChannelM] checks nothing: on an open port it returns for every
    channel and every count, sending [M channel m E 0 E] as one message; and
    when it raises, the error comes from the port, never from an assertion,
    and the object is as it was. *)
Theorem setChannelM_unchecked (channel m : value) :
  (forall name log,
      setChannelM channel m (online name log)
      = (online name (log ++ ["M " ++ str channel ++ " " ++ str m ++ " E 0 E"]),
         inr tt))
  /\ (forall self self' e,
         setChannelM channel m self = (self', inl e) ->
         self' = self /\ (e = AttributeError \/ e = SerialException)).
Proof.
  split.
  - intros name log. unfold setChannelM. rewrite write_online. reflexivity.
  - intros self self' e. unfold setChannelM, write, bind, get_c, Serial.write.
    destruct (c self) as [p|].
    + destruct (Serial.is_open p); intros H; [discriminate H|].
      injection H as <- <-. auto.
    + intros H. injection H as <- <-. auto.
Qed.

End SingleMessage.

(* ================================================================== *)
(** ** More on channel modes *)
(* ================================================================== *)

Section ModeEdges.

(** X9. The index test of [changeChannelMode] is an equality test, so it
    also lets through values that are not integers. A float equal to an index
    passes the test and then cannot index the mode list: the call raises
    [TypeError], not the assertion error, with nothing sent. A boolean passes
    it too and is used as the index 0 or 1. *)
Theorem mode_index_not_an_int :
  (forall (channel : value) (x : float) (self : Master8),
      contains channels channel = true ->
      contains cmList (Num (Float x)) = true ->
      changeChannelMode channel (Num (Float x)) self = (self, inl TypeError))
  /\ (forall (channel : value) (b : bool) (self : Master8),
         changeChannelMode channel (Bool b) self
         = changeChannelMode channel (Num (Int (int_of_bool b))) self).
Proof.
  split.
  - intros channel x self Hch Hx. unfold changeChannelMode.
    rewrite bind_assert, Hch, Hx, bind_lift. reflexivity.
  - intros channel b self. unfold changeChannelMode.
    rewrite !bind_assert. destruct (contains channels channel); [|reflexivity].
    now destruct b.
Qed.

Lemma mode_index_not_an_int_witness :
  changeChannelMode (Num (Int 3)) (Num (Float (literal 2 0))) (online None [])
  = (online None [], inl TypeError).
Proof.
  apply (proj1 mode_index_not_an_int); vm_compute; reflexivity.
Defined.






End ModeEdges.

(* ================================================================== *)
(** ** More on intervals *)
(* ================================================================== *)

Section IntervalEdges.

Lemma ltb_not_geb (a b : num) : ltb a b = true -> geb a b = false.
Proof. unfold ltb, geb. now destruct (compare a b) as [[| |]|]. Qed.

Lemma geb_Int (x y : Z) : geb (Int x) (Int y) = (y <=? x).
Proof.
  unfold geb, compare, fin_compare; cbn.
  rewrite !Z.mul_1_r. unfold Z.leb. rewrite (Z.compare_antisym x y).
  now destruct (x ?= y).
Qed.

(** X11. [writeInterval] raises the assertion error, with nothing sent, on
    every value below its minimum, and on a NaN as soon as one bound is set;
    so the three setters stop after their header on every duration below
    40e-6, interval below 60e-6 and delay below 100e-6. *)
Theorem interval_minimum :
  (forall (f lo : num) (maxf : option num) (res : Z) (self : Master8),
      ltb f lo = true ->
      writeInterval f (Some lo) maxf res self = (self, inl AssertionError))
  /\ (forall (minf maxf : option num) (res : Z) (self : Master8),
         minf <> None \/ maxf <> None ->
         writeInterval (Float S754_nan) minf maxf res self
         = (self, inl AssertionError))
  /\ (forall (channel : value) (f : num) (name : option string) (log : list string),
         (ltb f (Float (literal 40 (-6))) = true ->
          setChannelDuration channel f (online name log)
          = (online name (log ++ [join " " [DURATION; str channel]]),
             inl AssertionError))
         /\ (ltb f (Float (literal 60 (-6))) = true ->
             setChannelInterval channel f (online name log)
             = (online name (log ++ [join " " [INTERVAL; str channel]]),
                inl AssertionError))
         /\ (ltb f (Float (literal 100 (-6))) = true ->
             setChannelDelay channel f (online name log)
             = (online name (log ++ [join " " [DELAY; str channel]]),
                inl AssertionError))).
Proof.
  assert (Hlow : forall f lo maxf res self,
             ltb f lo = true ->
             writeInterval f (Some lo) maxf res self = (self, inl AssertionError)).
  { intros f lo maxf res self H. unfold writeInterval.
    now rewrite bind_assert_bound, (ltb_not_geb _ _ H). }
  split; [exact Hlow|]. split.
  - intros minf maxf res self H. unfold writeInterval.
    rewrite bind_assert_bound. destruct minf as [lo|].
    + reflexivity.
    + rewrite bind_assert_bound. destruct maxf as [hi|]; [reflexivity|].
      destruct H as [H|H]; now contradiction H.
  - intros channel f name log.
    unfold setChannelDuration, setChannelInterval, setChannelDelay.
    rewrite !bind_write_online.
    repeat split; intros H; now rewrite Hlow.
Qed.

Lemma interval_minimum_witness :
  setChannelInterval (Num (Int 5)) (Int 0) (online None [])
  = (online None ["I 5"], inl AssertionError)
  /\ writeInterval (Float S754_nan) None interval_maxf interval_res (online None [])
     = (online None [], inl AssertionError).
Proof.
  destruct interval_minimum as (_ & Hnan & Hset). split.
  - apply (proj1 (proj2 (Hset (Num (Int 5)) (Int 0) None []))).
    vm_compute. reflexivity.
  - apply Hnan. right. discriminate.
Defined.

(** X12. With precision 0 the formatted value has no decimal point, and the
    stripping of zeros eats into the integer: within the default bounds, ten
    times a whole number is sent exactly as the number itself. So 10 is sent
    as [1 E 0 E], and 0 as an empty value. *)
Theorem precision_zero_drops_tens :
  (forall (z : Z) (self : Master8),
      0 <= z <= 399 ->
      writeInterval (Int (10 * z)) interval_minf interval_maxf 0 self
      = writeInterval (Int z) interval_minf interval_maxf 0 self)
  /\ writeInterval (Int 10) interval_minf interval_maxf 0 (online None [])
     = (online None ["1 E 0 E"], inr tt)
  /\ writeInterval (Int 0) interval_minf interval_maxf 0 (online None [])
     = (online None [" E 0 E"], inr tt).
Proof.
  split; [|split; vm_compute; reflexivity].
  intros z self Hz.
  assert (H : forallb (fun k =>
                match format_f 0 (Int (10 * Z.of_nat k)), format_f 0 (Int (Z.of_nat k)) with
                | inr a, inr b =>
                    String.eqb (rstrip "." (rstrip "0" a)) (rstrip "." (rstrip "0" b))
                | _, _ => false
                end) (seq 0 400) = true)
    by (vm_compute; reflexivity).
  rewrite forallb_forall in H.
  specialize (H (Z.to_nat z)). rewrite Z2Nat.id in H by lia.
  assert (Hin : List.In (Z.to_nat z) (seq 0 400)) by (apply in_seq; lia).
  specialize (H Hin).
  unfold writeInterval, interval_minf, interval_maxf.
  rewrite !bind_assert_bound, !leb_Int, !geb_Int.
  replace (0 <=? 10 * z) with true by (symmetry; apply Z.leb_le; lia).
  replace (0 <=? z) with true by (symmetry; apply Z.leb_le; lia).
  replace (10 * z <=? 3999) with true by (symmetry; apply Z.leb_le; lia).
  replace (z <=? 3999) with true by (symmetry; apply Z.leb_le; lia).
  rewrite !bind_lift.
  destruct (format_f 0 (Int (10 * z))) as [e1|t1]; [discriminate H|].
  destruct (format_f 0 (Int z)) as [e2|t2]; [discriminate H|].
  apply String.eqb_eq in H. now rewrite H.
Qed.

Lemma precision_zero_drops_tens_witness :
  writeInterval (Int (10 * 25)) interval_minf interval_maxf 0 (online None [])
  = writeInterval (Int 25) interval_minf interval_maxf 0 (online None []).
Proof.
  apply (proj1 precision_zero_drops_tens 25 (online None [])). lia.
Defined.

End IntervalEdges.

(* ================================================================== *)
(** ** Setting a voltage *)
(* ================================================================== *)

Section VoltageSetter.

(** [writeVoltage] within its bounds, once the rounding has returned. *)
Lemma writeVoltage_within (f : num) (minf maxf : option num) (res : Z) (r : float)
      (name : option string) (log : list string) :
  match minf with Some lo => geb f lo | None => true end = true ->
  match maxf with Some hi => leb f hi | None => true end = true ->
  round (abs f) res = inr r ->
  writeVoltage f minf maxf res (online name log)
  = (online name (log ++ [str_float r ++ " E"]
                      ++ (if ltb f (Int 0) then ["-"] else [])
                      ++ ["E"]),
     inr tt).
Proof.
  intros Hlo Hhi Hr. unfold writeVoltage.
  rewrite bind_assert_bound.
  assert (Hlo' : forall k : Cmd unit,
             match minf with
             | Some b => if geb f b then k (online name log)
                         else (online name log, inl AssertionError)
             | None => k (online name log)
             end = k (online name log)).
  { intros k. destruct minf; [now rewrite Hlo | reflexivity]. }
  rewrite Hlo'. rewrite bind_assert_bound.
  assert (Hhi' : forall k : Cmd unit,
             match maxf with
             | Some b => if leb f b then k (online name log)
                         else (online name log, inl AssertionError)
             | None => k (online name log)
             end = k (online name log)).
  { intros k. destruct maxf; [now rewrite Hhi | reflexivity]. }
  rewrite Hhi'. rewrite bind_lift, Hr, bind_write_online.
  destruct (ltb f (Int 0)).
  - rewrite bind_write_online, write_online, <- !app_assoc. reflexivity.
  - unfold bind at 1. cbn [ret]. rewrite write_online, <- !app_assoc. reflexivity.
Qed.

Lemma string_append_assoc (s t u : string) : (s ++ t) ++ u = s ++ t ++ u.
Proof. induction s as [|a s IH]; cbn; [reflexivity | now rewrite IH]. Qed.

Lemma round_half_away_near (a b : Z) :
  0 < b -> Z.abs (2 * (round_half_away a b * b - a)) <= b.
Proof.
  intros Hb. unfold round_half_away.
  pose proof (Z.div_mod a b ltac:(lia)) as Hdiv.
  pose proof (Z.mod_pos_bound a b Hb) as Hmod.
  destruct (Z.compare_spec (2 * (a mod b)) b) as [H|H|H]; nia.
Qed.

Lemma scaled_denominator_pos (m : positive) (e p : Z) : 0 < snd (scaled m e p).
Proof.
  unfold scaled. cbn [snd]. apply Z.mul_pos_pos; apply Z.pow_pos_nonneg; lia.
Qed.

(** The text of every multiple of a tenth up to 12.7. *)
Lemma tenths_text (k : Z) :
  0 <= k <= 127 ->
  exists r, of_decimal false k 1 = inr r
            /\ str_float r = digits (k / 10) ++ "." ++ digits (k mod 10).
Proof.
  intros Hk.
  assert (H : forallb (fun i =>
                match of_decimal false (Z.of_nat i) 1 with
                | inr r => String.eqb (str_float r)
                             (digits (Z.of_nat i / 10) ++ "."
                              ++ digits (Z.of_nat i mod 10))
                | inl _ => false
                end) (seq 0 128) = true)
    by (vm_compute; reflexivity).
  rewrite forallb_forall in H.
  specialize (H (Z.to_nat k)). rewrite Z2Nat.id in H by lia.
  destruct (of_decimal false k 1) as [err|r].
  - discriminate H. apply in_seq. lia.
  - exists r. split; [reflexivity|]. apply String.eqb_eq, H, in_seq. lia.
Qed.

Lemma tenths_text_int (j : Z) :
  0 <= j <= 12 ->
  exists r, round (Int j) 1 = inr r
            /\ str_float r = digits (10 * j / 10) ++ "." ++ digits ((10 * j) mod 10).
Proof.
  intros Hj.
  assert (H : forallb (fun i =>
                match round (Int (Z.of_nat i)) 1 with
                | inr r => String.eqb (str_float r)
                             (digits (10 * Z.of_nat i / 10) ++ "."
                              ++ digits ((10 * Z.of_nat i) mod 10))
                | inl _ => false
                end) (seq 0 13) = true)
    by (vm_compute; reflexivity).
  rewrite forallb_forall in H.
  specialize (H (Z.to_nat j)). rewrite Z2Nat.id in H by lia.
  destruct (round (Int j) 1) as [err|r].
  - discriminate H. apply in_seq. lia.
  - exists r. split; [reflexivity|]. apply String.eqb_eq, H, in_seq. lia.
Qed.

Lemma voltage_int_bounds (z : Z) :
  geb (Int z) (Float (SFopp (literal 127 (-1)))) = true ->
  leb (Int z) (Float (literal 127 (-1))) = true ->
  -12 <= z <= 12.
Proof.
  rewrite literal_12_7.
  cbv beta iota zeta delta
      [geb leb compare fin_compare exact_of exact_of_float cond_Zopp SFopp negb].
  change (Z.min 0 (-49)) with (-49).
  change (2 ^ (0 - -49)) with 562949953421312.
  change (2 ^ (-49 - -49)) with 1.
  destruct (Z.compare_spec (z * 562949953421312) (Z.opp 7149464408450662 * 1));
    intros Hlo; try discriminate Hlo;
    destruct (Z.compare_spec (z * 562949953421312) (7149464408450662 * 1));
    intros Hhi; try discriminate Hhi; lia.
Qed.

Lemma round_abs_finite (s : bool) (m : positive) (e : Z) :
  round (abs (Float (S754_finite s m e))) 1
  = of_decimal false (round_half_away (fst (scaled m e 1)) (snd (scaled m e 1))) 1.
Proof.
  cbn [abs SFabs round to_float round_float].
  change (323 <? 1) with false. change (1 <? -308) with false. cbv iota.
  now destruct (scaled m e 1).
Qed.

(** The magnitude of a voltage within the bounds, in tenths. *)
Lemma voltage_in_tenths (v : num) :
  geb v (Float (SFopp (literal 127 (-1)))) = true ->
  leb v (Float (literal 127 (-1))) = true ->
  exists k r,
    0 <= k <= 127
    /\ match v with
       | Int z => k = 10 * Z.abs z
       | Float (S754_finite _ m e) =>
           Z.abs (2 * (k * snd (scaled m e 1) - fst (scaled m e 1)))
           <= snd (scaled m e 1)
       | Float _ => k = 0
       end
    /\ round (abs v) 1 = inr r
    /\ str_float r = digits (k / 10) ++ "." ++ digits (k mod 10).
Proof.
  intros Hlo Hhi. destruct v as [z|[s|s| |s m e]].
  - pose proof (voltage_int_bounds z Hlo Hhi) as Hz.
    destruct (tenths_text_int (Z.abs z) ltac:(lia)) as [r [Hr Ht]].
    exists (10 * Z.abs z), r. repeat split; try lia; assumption.
  - exists 0, (S754_zero false). repeat split; lia.
  - destruct s; [discriminate Hlo | discriminate Hhi].
  - discriminate Hlo.
  - pose proof (voltage_tenths m e (voltage_magnitude s m e Hlo Hhi)) as Hk.
    destruct (tenths_text _ Hk) as [r [Hr Ht]].
    exists (round_half_away (fst (scaled m e 1)) (snd (scaled m e 1))), r.
    split; [exact Hk|]. split; [|split].
    + apply round_half_away_near, scaled_denominator_pos.
    + now rewrite round_abs_finite.
    + exact Ht.
Qed.

(** X13. On a channel from 1 to 8 and a voltage from -12.7 to 12.7,
    [setChannelVoltage] always returns. It sends [V channel], then the
    magnitude in tenths as [d.d E] or [dd.d E], then [-] when the voltage is
    negative, then [E]. The tenths are the magnitude times ten rounded to the
    nearest integer, a half going up, and at most 127. *)
Theorem setChannelVoltage_tenths (channel : Z) (v : num)
        (name : option string) (log : list string) :
  1 <= channel <= 8 ->
  geb v (Float (SFopp (literal 127 (-1)))) = true ->
  leb v (Float (literal 127 (-1))) = true ->
  exists k : Z,
    0 <= k <= 127
    /\ match v with
       | Int z => k = 10 * Z.abs z
       | Float (S754_finite _ m e) =>
           Z.abs (2 * (k * snd (scaled m e 1) - fst (scaled m e 1)))
           <= snd (scaled m e 1)
       | Float _ => k = 0
       end
    /\ setChannelVoltage (Num (Int channel)) v (online name log)
       = (online name
            (log ++ ["V " ++ digits channel;
                     digits (k / 10) ++ "." ++ digits (k mod 10) ++ " E"]
                 ++ (if ltb v (Int 0) then ["-"] else [])
                 ++ ["E"]),
          inr tt).
Proof.
  intros Hch Hlo Hhi.
  destruct (voltage_in_tenths v Hlo Hhi) as (k & r & Hk & Hacc & Hr & Ht).
  exists k. split; [exact Hk|]. split; [exact Hacc|].
  unfold setChannelVoltage, channels.
  rewrite bind_assert, (proj2 (contains_1_to_8 channel) Hch), bind_write_online.
  rewrite (writeVoltage_within v (Some _) (Some _) 1 r name _ Hlo Hhi Hr), Ht.
  rewrite <- !app_assoc, !string_append_assoc. reflexivity.
Qed.

Lemma setChannelVoltage_tenths_witness :
  exists k : Z,
    0 <= k <= 127
    /\ Z.abs (2 * (k * snd (scaled 5629499534213120 (-50) 1)
                   - fst (scaled 5629499534213120 (-50) 1)))
       <= snd (scaled 5629499534213120 (-50) 1)
    /\ setChannelVoltage (Num (Int 2))
                         (Float (S754_finite true 5629499534213120 (-50)))
                         (online None [])
       = (online None
            ([] ++ ["V " ++ digits 2;
                    digits (k / 10) ++ "." ++ digits (k mod 10) ++ " E"]
                ++ ["-"] ++ ["E"]),
          inr tt).
Proof.
  apply (setChannelVoltage_tenths 2 (Float (S754_finite true 5629499534213120 (-50)))
                                  None []);
    [lia | vm_compute; reflexivity | vm_compute; reflexivity].
Defined.

(** X14. [setChannelVoltage] raises the assertion error, with nothing sent
    and whatever the port, on a channel outside 1 to 8; on a valid channel
    and a voltage above 12.7 or below -12.7 it raises it after [V channel]
    has been sent. *)
Theorem setChannelVoltage_rejects :
  (forall (channel : Z) (v : num) (self : Master8),
      ~ 1 <= channel <= 8 ->
      setChannelVoltage (Num (Int channel)) v self = (self, inl AssertionError))
  /\ (forall (channel : Z) (v : num) (name : option string) (log : list string),
         1 <= channel <= 8 ->
         ltb (Float (literal 127 (-1))) v = true
         \/ ltb v (Float (SFopp (literal 127 (-1)))) = true ->
         setChannelVoltage (Num (Int channel)) v (online name log)
         = (online name (log ++ ["V " ++ digits channel]), inl AssertionError)).
Proof.
  unfold setChannelVoltage, channels. split.
  - intros channel v self H. now rewrite bind_assert, contains_not_1_to_8.
  - intros channel v name log Hch Hv.
    rewrite bind_assert, (proj2 (contains_1_to_8 channel) Hch), bind_write_online.
    unfold writeVoltage. rewrite bind_assert_bound.
    destruct Hv as [Hv|Hv].
    + destruct (geb v _); [|reflexivity].
      now rewrite bind_assert_bound, (ltb_not_leb _ _ Hv).
    + now rewrite (ltb_not_geb _ _ Hv).
Qed.

Lemma setChannelVoltage_rejects_witness :
  setChannelVoltage (Num (Int 0)) (Int 1) (online None [])
  = (online None [], inl AssertionError)
  /\ setChannelVoltage (Num (Int 8)) (Int (-13)) (online None [])
     = (online None ["V 8"], inl AssertionError).
Proof.
  split.
  - apply (proj1 setChannelVoltage_rejects). lia.
  - apply (proj2 setChannelVoltage_rejects 8 (Int (-13)) None []); [lia|].
    right. vm_compute. reflexivity.
Defined.

End VoltageSetter.

(* ================================================================== *)
(** ** The bytes on the wire *)
(* ================================================================== *)

Section Wire.

Lemma concat_app (l1 l2 : list string) :
  String.concat "" (l1 ++ l2) = String.concat "" l1 ++ String.concat "" l2.
Proof.
  induction l1 as [|x l1 IH]; [reflexivity|].
  destruct l1 as [|y l1].
  - cbn [app]. destruct l2 as [|z l2]; cbn.
    + induction x as [|a x IHx]; cbn; [reflexivity | now rewrite <- IHx].
    + reflexivity.
  - cbn [app String.concat] in *. rewrite IH.
    cbn. now rewrite string_append_assoc.
Qed.

Lemma on_wire_online (name : option string) (log msgs : list string) :
  on_wire (online name (log ++ msgs))
  = on_wire (online name log) ++ String.concat "" msgs.
Proof. unfold on_wire, written, online. cbn. apply concat_app. Qed.

(** X15. The two writes of an interval setter reach the wire back to back:
    for an accepted duration the bytes added are [D ], the channel, and
    immediately the value and [ E 0 E], with nothing between the channel and
    the value; likewise for intervals and delays. As the channel is not
    checked either, the bytes do not tell the arguments:
    [setChannelDuration(1, 10.5)] and [setChannelDuration(11, 0.5)] put the
    same bytes on the wire. *)
Theorem setter_bytes_run_together :
  (forall (channel : value) (d : num) (name : option string) (log : list string),
      leb d (Int 3999) = true ->
      (geb d (Float (literal 40 (-6))) = true ->
       exists t, format_f 6 d = inr t
         /\ on_wire (fst (setChannelDuration channel d (online name log)))
            = on_wire (online name log)
              ++ "D " ++ str channel ++ rstrip "." (rstrip "0" t) ++ " E 0 E")
      /\ (geb d (Float (literal 60 (-6))) = true ->
          exists t, format_f 6 d = inr t
            /\ on_wire (fst (setChannelInterval channel d (online name log)))
               = on_wire (online name log)
                 ++ "I " ++ str channel ++ rstrip "." (rstrip "0" t) ++ " E 0 E")
      /\ (geb d (Float (literal 100 (-6))) = true ->
          exists t, format_f 6 d = inr t
            /\ on_wire (fst (setChannelDelay channel d (online name log)))
               = on_wire (online name log)
                 ++ "L " ++ str channel ++ rstrip "." (rstrip "0" t) ++ " E 0 E"))
  /\ on_wire (fst (setChannelDuration (Num (Int 1)) (Float (literal 105 (-1)))
                                      (online None [])))
     = on_wire (fst (setChannelDuration (Num (Int 11)) (Float (literal 5 (-1)))
                                        (online None []))).
Proof.
  split; [|vm_compute; reflexivity].
  intros channel d name log Hhi.
  unfold setChannelDuration, setChannelInterval, setChannelDelay.
  rewrite literal_40us, literal_60us, literal_100us.
  repeat split; intros Hlo;
    destruct (format_f_interval d _ _ Hlo Hhi) as [t Ht];
    exists t; (split; [exact Ht|]);
    rewrite bind_write_online;
    rewrite (writeInterval_within d (Some _) (Some _) interval_res t name _ Hlo Hhi Ht);
    cbn [fst]; rewrite <- app_assoc, on_wire_online;
    f_equal; cbn; now rewrite !string_append_assoc.
Qed.

Lemma setter_bytes_run_together_witness :
  exists t, format_f 6 (Int 2) = inr t
    /\ on_wire (fst (setChannelDelay (Num (Int 7)) (Int 2) (online None ["A 1 E"])))
       = on_wire (online None ["A 1 E"])
         ++ "L " ++ str (Num (Int 7)) ++ rstrip "." (rstrip "0" t) ++ " E 0 E".
Proof.
  apply (proj2 (proj2 (proj1 setter_bytes_run_together (Num (Int 7)) (Int 2) None
                            ["A 1 E"] ltac:(reflexivity)))).
  vm_compute. reflexivity.
Defined.

End Wire.

(* ================================================================== *)
(** ** What the stripping keeps *)
(* ================================================================== *)

Section Stripping.

Lemma all_chars_append (P : ascii -> bool) (s t : string) :
  all_chars P (s ++ t) = all_chars P s && all_chars P t.
Proof.
  induction s as [|a s IH]; cbn; [reflexivity | now rewrite IH, andb_assoc].
Qed.

Lemma all_chars_weaken (P Q : ascii -> bool) (s : string) :
  (forall a, P a = true -> Q a = true) ->
  all_chars P s = true -> all_chars Q s = true.
Proof.
  intros HPQ. induction s as [|a s IH]; cbn; [reflexivity|].
  rewrite !andb_true_iff. intros [Ha Hs]. auto.
Qed.

Lemma digit_not_point (a : ascii) : is_digit a = true -> is_point a = false.
Proof.
  unfold is_digit, is_point. destruct (Ascii.eqb_spec a "."%char) as [->|]; [|reflexivity].
  cbn. discriminate.
Qed.

Lemma uint_text_digits (d : Decimal.uint) :
  all_chars is_digit (NilEmpty.string_of_uint d) = true.
Proof. induction d; cbn; [reflexivity | exact IHd ..]. Qed.

(** The decimal text of a natural number is made of digits. *)
Lemma digits_are_digits (n : Z) : 0 <= n -> all_chars is_digit (digits n) = true.
Proof.
  intros Hn. unfold digits. destruct n as [|q|q]; [reflexivity| |lia].
  cbn [Z.to_int NilZero.string_of_int].
  unfold NilZero.string_of_uint.
  destruct (Pos.to_uint q) eqn:E; [reflexivity | rewrite <- E; apply uint_text_digits ..].
Qed.

Lemma digit_char_is_digit (d : Z) : 0 <= d < 10 -> is_digit (digit_char d) = true.
Proof.
  intros H.
  assert (Hc : d = 0 \/ d = 1 \/ d = 2 \/ d = 3 \/ d = 4 \/ d = 5 \/ d = 6
               \/ d = 7 \/ d = 8 \/ d = 9) by lia.
  destruct Hc as [->|[->|[->|[->|[->|[->|[->|[->|[->| ->]]]]]]]]]; reflexivity.
Qed.

Lemma frac_text_digits (p : nat) (n : Z) : all_chars is_digit (frac_text p n) = true.
Proof.
  revert n. induction p as [|p IH]; intros n; cbn [frac_text]; [reflexivity|].
  rewrite all_chars_append, IH. cbn [all_chars andb].
  rewrite digit_char_is_digit; [reflexivity|].
  apply Z.mod_pos_bound. lia.
Qed.

(** [rstrip] on texts it cannot shorten, and across a concatenation. *)
Lemma rstrip_absent (ch : ascii) (s : string) :
  all_chars (fun a => negb (Ascii.eqb a ch)) s = true -> rstrip ch s = s.
Proof.
  induction s as [|a s IH]; cbn [all_chars rstrip]; [reflexivity|].
  rewrite andb_true_iff, negb_true_iff. intros [Ha Hs].
  rewrite (IH Hs), Ha. now destruct s.
Qed.

Lemma rstrip_app_kept (ch : ascii) (s t : string) :
  rstrip ch t <> "" -> rstrip ch (s ++ t) = s ++ rstrip ch t.
Proof.
  intros Ht. induction s as [|a s IH]; [reflexivity|].
  cbn [append rstrip]. rewrite IH.
  destruct (s ++ rstrip ch t) eqn:E; [|reflexivity].
  destruct s; [contradiction | discriminate E].
Qed.

Lemma rstrip_app_gone (ch : ascii) (s t : string) :
  rstrip ch t = "" -> rstrip ch (s ++ t) = rstrip ch s.
Proof.
  intros Ht. induction s as [|a s IH]; [exact Ht|].
  cbn [append rstrip]. now rewrite IH.
Qed.

Lemma rstrip_point_head (fp : string) :
  rstrip "0" (String "." fp) = String "." (rstrip "0" fp).
Proof. cbn [rstrip]. now destruct (rstrip "0" fp). Qed.

Lemma after_point_absent (s : string) :
  all_chars (fun a => negb (is_point a)) s = true -> after_point s = None.
Proof.
  induction s as [|a s IH]; cbn; [reflexivity|].
  rewrite andb_true_iff, negb_true_iff. intros [-> Hs]. auto.
Qed.

Lemma after_point_first (s r : string) :
  all_chars (fun a => negb (is_point a)) s = true ->
  after_point (s ++ String "." r) = Some r.
Proof.
  induction s as [|a s IH]; cbn; [reflexivity|].
  rewrite andb_true_iff, negb_true_iff. intros [-> Hs]. auto.
Qed.

Lemma repeat_char_length (ch : ascii) (n : nat) :
  String.length (repeat_char ch n) = n.
Proof. induction n as [|n IH]; cbn; [reflexivity | now rewrite IH]. Qed.

(** A fixed-point text comes back from its stripped form. *)
Lemma restore_stripped (ip fp : string) :
  all_chars (fun a => negb (is_point a)) ip = true ->
  all_chars (fun a => negb (is_point a)) fp = true ->
  restore_decimals (String.length fp) (rstrip "." (rstrip "0" (ip ++ "." ++ fp)))
  = ip ++ "." ++ fp.
Proof.
  intros Hip Hfp.
  change (ip ++ "." ++ fp) with (ip ++ String "." fp).
  rewrite rstrip_app_kept by (rewrite rstrip_point_head; discriminate).
  rewrite rstrip_point_head.
  destruct (rstrip_spec "0" fp) as [k [Hk _]].
  remember (rstrip "0" fp) as r eqn:Er. clear Er. subst fp.
  rewrite all_chars_append in Hfp. apply andb_true_iff in Hfp as [Hr _].
  rewrite length_append, repeat_char_length.
  destruct r as [|b r'].
  - (* only zeros after the point *)
    rewrite rstrip_app_gone by reflexivity.
    rewrite (rstrip_absent "." ip Hip).
    unfold restore_decimals. now rewrite (after_point_absent ip Hip).
  - assert (Hs : rstrip "." (String "." (String b r')) = String "." (String b r')).
    { change (String "." (String b r')) with ("." ++ String b r').
      rewrite rstrip_app_kept; rewrite (rstrip_absent "." (String b r') Hr);
        [reflexivity | discriminate]. }
    rewrite rstrip_app_kept by (rewrite Hs; discriminate).
    rewrite Hs. unfold restore_decimals.
    rewrite (after_point_first ip (String b r') Hip).
    replace (String.length (String b r') + k - String.length (String b r'))%nat
      with k by lia.
    now rewrite string_append_assoc.
Qed.

End Stripping.

Section SentValues.

Lemma round_half_even_nonneg (a b : Z) :
  0 <= a -> 0 < b -> 0 <= round_half_even a b.
Proof.
  intros Ha Hb. unfold round_half_even.
  pose proof (Z.div_pos a b Ha Hb).
  destruct (2 * (a mod b) ?= b); [destruct (Z.even (a / b))| |]; lia.
Qed.

Lemma scaled_numerator_nonneg (m : positive) (e p : Z) : 0 <= fst (scaled m e p).
Proof.
  unfold scaled. cbn [fst].
  apply Z.mul_nonneg_nonneg; [apply Z.mul_nonneg_nonneg; [lia|]|];
    apply Z.pow_nonneg; lia.
Qed.

Lemma digits_nonempty (n : Z) : 0 <= n -> digits n <> "".
Proof.
  intros Hn. unfold digits. destruct n as [|q|q]; [discriminate| |lia].
  cbn [Z.to_int NilZero.string_of_int]. unfold NilZero.string_of_uint.
  destruct (Pos.to_uint q); discriminate.
Qed.

Lemma sign_text_no_point (s : bool) :
  all_chars (fun a => negb (is_point a)) (sign_text s) = true.
Proof. now destruct s. Qed.

Lemma digits_no_point (s : string) :
  all_chars is_digit s = true -> all_chars (fun a => negb (is_point a)) s = true.
Proof.
  apply all_chars_weaken. intros a Ha. now rewrite (digit_not_point a Ha).
Qed.

(** The fixed-point text of a number: an integer part without a point, a
    point, and [p] digits. The integer part is made of digits when the sign
    is positive. *)
Lemma format_f_float_shape (p : Z) (x : float) :
  0 < p -> is_number x = true ->
  exists (s : bool) (q : Z) (fp : string),
    0 <= q
    /\ format_f_float p x = (sign_text s ++ digits q) ++ "." ++ fp
    /\ all_chars is_digit fp = true
    /\ String.length fp = Z.to_nat p
    /\ match x with
       | S754_finite sx _ _ | S754_zero sx => s = sx
       | _ => True
       end.
Proof.
  intros Hp Hx.
  assert (Hshape : forall (s : bool) (n : Z), 0 <= n ->
    exists q fp, 0 <= q
      /\ sign_text s ++ fixed_text n p = (sign_text s ++ digits q) ++ "." ++ fp
      /\ all_chars is_digit fp = true
      /\ String.length fp = Z.to_nat p).
  { intros s n Hn.
    exists (n / 10 ^ p), (frac_text (Z.to_nat p) (n mod 10 ^ p)).
    split; [apply Z.div_pos; [lia | apply Z.pow_pos_nonneg; lia]|].
    split; [|split; [apply frac_text_digits | apply frac_text_length]].
    unfold fixed_text. destruct (Z.leb_spec p 0); [lia|].
    now rewrite string_append_assoc. }
  destruct x as [s|s| |s m e]; try discriminate Hx; cbn [format_f_float].
  - destruct (Hshape s 0 ltac:(lia)) as (q & fp & H1 & H2 & H3 & H4).
    exists s, q, fp. auto.
  - destruct (scaled m e p) as [a b] eqn:E.
    assert (Hn : 0 <= round_half_even a b).
    { apply round_half_even_nonneg.
      - change a with (fst (a, b)). rewrite <- E. apply scaled_numerator_nonneg.
      - change b with (snd (a, b)). rewrite <- E. apply scaled_denominator_pos. }
    destruct (Hshape s _ Hn) as (q & fp & H1 & H2 & H3 & H4).
    exists s, q, fp. auto.
Qed.

Lemma append_inv_tail (s1 s2 u : string) : s1 ++ u = s2 ++ u -> s1 = s2.
Proof.
  revert s2. induction s1 as [|a s1 IH]; intros [|b s2] H; cbn in H.
  - reflexivity.
  - apply (f_equal String.length) in H. cbn in H. rewrite length_append in H. lia.
  - apply (f_equal String.length) in H. cbn in H. rewrite length_append in H. lia.
  - injection H as -> H. f_equal. now apply IH.
Qed.

Lemma interval_message_stripped (t : string) :
  interval_message t = rstrip "." (rstrip "0" t) ++ " E 0 E".
Proof. reflexivity. Qed.

(** The formatted text of a number comes back from what is sent. *)
Lemma restore_formatted (p : Z) (x : float) :
  0 < p -> is_number x = true ->
  restore_decimals (Z.to_nat p) (rstrip "." (rstrip "0" (format_f_float p x)))
  = format_f_float p x.
Proof.
  intros Hp Hx.
  destruct (format_f_float_shape p x Hp Hx) as (s & q & fp & Hq & Ht & Hfp & Hlen & _).
  rewrite Ht, <- Hlen. apply restore_stripped.
  - rewrite all_chars_append, sign_text_no_point.
    apply digits_no_point, digits_are_digits, Hq.
  - now apply digits_no_point.
Qed.

(** X16. With a positive precision the stripping of zeros and point loses
    nothing: padding the sent value back to [res] decimals gives the
    formatted text again. So two numbers within the bounds make
    [writeInterval] behave alike only if they have the same text to [res]
    decimals. *)
Theorem stripping_loses_nothing (res : Z) (x1 x2 : float) :
  0 < res -> is_number x1 = true -> is_number x2 = true ->
  restore_decimals (Z.to_nat res) (rstrip "." (rstrip "0" (format_f_float res x1)))
  = format_f_float res x1
  /\ (forall (minf maxf : option num) (name : option string) (log : list string),
         match minf with Some lo => geb (Float x1) lo | None => true end = true ->
         match maxf with Some hi => leb (Float x1) hi | None => true end = true ->
         match minf with Some lo => geb (Float x2) lo | None => true end = true ->
         match maxf with Some hi => leb (Float x2) hi | None => true end = true ->
         writeInterval (Float x1) minf maxf res (online name log)
         = writeInterval (Float x2) minf maxf res (online name log) ->
         format_f res (Float x1) = format_f res (Float x2)).
Proof.
  intros Hres H1 H2. split; [now apply restore_formatted|].
  intros minf maxf name log Hlo1 Hhi1 Hlo2 Hhi2.
  assert (Hf : forall x, format_f res (Float x) = inr (format_f_float res x)).
  { intros x. rewrite format_f_Float. destruct (Z.ltb_spec res 0); [lia | reflexivity]. }
  rewrite (writeInterval_within _ minf maxf res _ name log Hlo1 Hhi1 (Hf x1)).
  rewrite (writeInterval_within _ minf maxf res _ name log Hlo2 Hhi2 (Hf x2)).
  intros H. injection H as H. apply app_inv_head in H. injection H as H.
  rewrite !interval_message_stripped in H. apply append_inv_tail in H.
  rewrite !Hf. f_equal.
  rewrite <- (restore_formatted res x1 Hres H1), <- (restore_formatted res x2 Hres H2).
  now rewrite H.
Qed.

Lemma stripping_loses_nothing_witness :
  restore_decimals 6 (rstrip "." (rstrip "0" (format_f_float 6 (literal 15 (-1)))))
  = format_f_float 6 (literal 15 (-1)).
Proof.
  apply (proj1 (stripping_loses_nothing 6 (literal 15 (-1)) (literal 25 (-2))
                  ltac:(lia) ltac:(vm_compute; reflexivity)
                  ltac:(vm_compute; reflexivity))).
Defined.

End SentValues.

Section Keypad.

Lemma rstrip_all_chars (P : ascii -> bool) (ch : ascii) (s : string) :
  all_chars P s = true -> all_chars P (rstrip ch s) = true.
Proof.
  intros H. destruct (rstrip_spec ch s) as [n [Hn _]].
  rewrite Hn, all_chars_append in H. now apply andb_true_iff in H.
Qed.

(** A float between a positive finite float and 3999 is positive and
    finite. *)
Lemma interval_float_positive (x : float) (m : positive) (e : Z) :
  geb (Float x) (Float (S754_finite false m e)) = true ->
  leb (Float x) (Int 3999) = true ->
  exists m' e', x = S754_finite false m' e'.
Proof.
  intros Hlo Hhi. destruct x as [s|s| |s m' e'].
  - exfalso. revert Hlo.
    cbv beta iota zeta delta [geb compare fin_compare exact_of exact_of_float cond_Zopp].
    assert (0 < Zpos m * 2 ^ (e - Z.min 0 e))
      by (apply Z.mul_pos_pos; [lia | apply Z.pow_pos_nonneg; lia]).
    destruct (Z.compare_spec (0 * 2 ^ (0 - Z.min 0 e)) (Zpos m * 2 ^ (e - Z.min 0 e)));
      intros Hc; try discriminate Hc; lia.
  - destruct s; [discriminate Hlo | discriminate Hhi].
  - discriminate Hlo.
  - destruct s; [|eauto]. exfalso. revert Hlo.
    cbv beta iota zeta delta [geb compare fin_compare exact_of exact_of_float cond_Zopp].
    assert (0 < Zpos m * 2 ^ (e - Z.min e' e))
      by (apply Z.mul_pos_pos; [lia | apply Z.pow_pos_nonneg; lia]).
    assert (0 < Zpos m' * 2 ^ (e' - Z.min e' e))
      by (apply Z.mul_pos_pos; [lia | apply Z.pow_pos_nonneg; lia]).
    destruct (Z.compare_spec (Z.opp (Zpos m') * 2 ^ (e' - Z.min e' e))
                             (Zpos m * 2 ^ (e - Z.min e' e)));
      intros Hc; try discriminate Hc; lia.
Qed.

(** The values of whole durations, tried one by one. *)
Lemma interval_int_keypad (z : Z) :
  1 <= z <= 3999 ->
  exists t, format_f interval_res (Int z) = inr t
            /\ all_chars keypad (rstrip "." (rstrip "0" t)) = true
            /\ rstrip "." (rstrip "0" t) <> "".
Proof.
  intros Hz.
  assert (H : forallb (fun k =>
                match format_f interval_res (Int (Z.of_nat k)) with
                | inr t => all_chars keypad (rstrip "." (rstrip "0" t))
                           && negb (String.eqb (rstrip "." (rstrip "0" t)) "")
                | inl _ => false
                end) (seq 1 3999) = true)
    by (vm_compute; reflexivity).
  rewrite forallb_forall in H.
  specialize (H (Z.to_nat z)). rewrite Z2Nat.id in H by lia.
  assert (Hin : List.In (Z.to_nat z) (seq 1 3999)) by (apply in_seq; lia).
  specialize (H Hin).
  destruct (format_f interval_res (Int z)) as [err|t]; [discriminate H|].
  apply andb_true_iff in H as [Hk Hne]. exists t. repeat split; [exact Hk|].
  intros Hempty. rewrite Hempty in Hne. discriminate Hne.
Qed.

(** X17. Under a positive minimum and the default maximum and precision,
    what [writeInterval] sends for the value is never empty and made of
    digits and points only: no sign, no exponent, no [nan] or [inf]. This is
    the case of the three interval setters. *)
Theorem interval_value_is_keypad_text (f : num) (m : positive) (e : Z)
        (name : option string) (log : list string) :
  geb f (Float (S754_finite false m e)) = true ->
  leb f (Int 3999) = true ->
  exists u : string,
    all_chars keypad u = true
    /\ u <> ""
    /\ writeInterval f (Some (Float (S754_finite false m e))) interval_maxf
                     interval_res (online name log)
       = (online name (log ++ [u ++ " E 0 E"]), inr tt).
Proof.
  intros Hlo Hhi.
  assert (Hsend : forall t,
             format_f interval_res f = inr t ->
             writeInterval f (Some (Float (S754_finite false m e))) interval_maxf
                           interval_res (online name log)
             = (online name (log ++ [rstrip "." (rstrip "0" t) ++ " E 0 E"]), inr tt)).
  { intros t Ht. unfold interval_maxf.
    now rewrite (writeInterval_within f (Some _) (Some _) interval_res t name log
                   Hlo Hhi Ht). }
  destruct f as [z|x].
  - pose proof (geb_Int_pos z m e Hlo) as Hpos.
    rewrite leb_Int in Hhi. apply Z.leb_le in Hhi.
    destruct (interval_int_keypad z ltac:(lia)) as (t & Ht & Hk & Hne).
    exists (rstrip "." (rstrip "0" t)). auto.
  - destruct (interval_float_positive x m e Hlo Hhi) as (m' & e' & ->).
    set (x := S754_finite false m' e').
    destruct (format_f_float_shape interval_res x ltac:(reflexivity) ltac:(reflexivity))
      as (s & q & fp & Hq & Ht & Hfp & Hlen & Hs).
    cbn in Hs. subst s. cbn [sign_text append] in Ht.
    assert (Hdig : all_chars is_digit (digits q) = true) by now apply digits_are_digits.
    exists (rstrip "." (rstrip "0" (format_f_float interval_res x))).
    split; [|split].
    + assert (Hpad : forall a, is_digit a = true -> keypad a = true)
        by (intros a Ha; unfold keypad; now rewrite Ha).
      pose proof (all_chars_weaken is_digit keypad _ Hpad Hdig) as Hk1.
      pose proof (all_chars_weaken is_digit keypad _ Hpad Hfp) as Hk2.
      do 2 apply rstrip_all_chars.
      rewrite Ht, all_chars_append, Hk1. cbn [append all_chars andb].
      rewrite Hk2. reflexivity.
    + intros Hempty.
      pose proof (restore_formatted interval_res x ltac:(reflexivity) ltac:(reflexivity))
        as Hback.
      rewrite Hempty, Ht in Hback. unfold restore_decimals in Hback. cbn in Hback.
      pose proof (digits_nonempty q Hq) as Hne.
      destruct (digits q) as [|a d]; [now apply Hne|].
      cbn in Hdig, Hback. apply andb_true_iff in Hdig as [Ha _].
      injection Hback as Hpt _. rewrite <- Hpt in Ha. discriminate Ha.
    + apply Hsend. reflexivity.
Qed.

Lemma interval_value_is_keypad_text_witness :
  exists u : string,
    all_chars keypad u = true
    /\ u <> ""
    /\ writeInterval (Float (literal 25 (-4)))
                     (Some (Float (S754_finite false 5902958103587057 (-67))))
                     interval_maxf interval_res (online None ["D 1"])
       = (online None (["D 1"] ++ [u ++ " E 0 E"]), inr tt).
Proof.
  apply (interval_value_is_keypad_text (Float (literal 25 (-4)))
           5902958103587057 (-67) None ["D 1"]);
    vm_compute; reflexivity.
Defined.

End Keypad.
